(** * Task monitor: the task state machine, its timer and the activity handler

    A shallow embedding of
    [ros/angel_system_nodes/angel_system_nodes/task_monitor.py]:
    the [Task] object with its state machine, and the [TaskMonitor] node
    with [listener_callback], [publish_task_state_message] and
    [task_timer_thread].

    Python objects are records, mutation is explicit state passing in a
    small monad that also carries the raised exception and the trace of
    outward effects (published messages, trigger calls, the timer thread
    being started, sleeps).  Dictionaries used as maps are [gmap]s; the
    ordered dictionary of machine states, whose key order the timer
    relies on, is an association list.  Each handler runs to completion
    on its own: the lock around [_timer_active] is not modelled.  Logger
    calls and the message time stamp are left out. *)

From stdpp Require Import base option list strings gmap.
From Stdlib Require Import ZArith Lia Ascii String.

Local Open Scope Z_scope.
Local Open Scope string_scope.

(** ** Data *)

(** One entry of [Task.transitions]: [{'trigger':…, 'source':…, 'dest':…}]. *)
Record Transition := mkTransition {
  trigger : string;
  source : string;
  dest : string;
}.

(** A state object of the machine.  [timer_length] is an attribute that
    only some states carry; reading it on the others raises
    [AttributeError].  The source stores it as a float with an integral
    value ([20.0]) and only ever subtracts [1] from it and truncates it
    with [int]; it is an integer here. *)
Record State := mkState {
  timer_length : option Z;
}.

(** [Machine.states]: an ordered dictionary from state name to state. *)
Record Machine := mkMachine {
  states : list (string * State);
}.

(** The [Task] object.  [state] is the attribute the machine maintains on
    its model; [to_state_dict] maps a state name to the [to_<name>] method,
    represented by the state that method moves to. *)
Record Task := mkTask {
  name : string;
  items : list (string * Z);
  description : string;
  steps : list string;
  transitions : list Transition;
  machine : Machine;
  to_state_dict : gmap string string;
  state : string;
}.

(** The [TaskMonitor] node.  [_activity_action_dict] maps an activity label
    to a trigger method of the task, represented by the trigger's name. *)
Record TaskMonitor := mkTaskMonitor {
  _task : Task;
  _current_step : string;
  _previous_step : option string;
  _current_activity : option string;
  _next_activity : option string;
  _timer_active : bool;
  _activity_action_dict : gmap string string;
}.

(** The [angel_msgs/TaskUpdate] message, without its header.
    [next_activity] receives [self._next_activity] as it is, which is
    [None] until a step with an outgoing transition has been published. *)
Module TaskUpdate.
Record t := mk {
  task_name : string;
  task_description : string;
  task_items : list (string * Z);
  steps : list string;
  current_step : string;
  previous_step : string;
  current_activity : string;
  next_activity : option string;
  time_remaining_until_next_task : Z;
}.
End TaskUpdate.

(** Python exceptions the code can raise. *)
Inductive exn :=
  | IndexError
  | KeyError
  | ValueError
  | AttributeError
  | MachineError.

(** Whether a raised exception is the one an [except] clause names. *)
Definition exn_eqb (e1 e2 : exn) : bool :=
  match e1, e2 with
  | IndexError, IndexError
  | KeyError, KeyError
  | ValueError, ValueError
  | AttributeError, AttributeError
  | MachineError, MachineError => true
  | _, _ => false
  end.

(** Outward effects, in the order they happen. *)
Inductive effect :=
  | Publish (m : TaskUpdate.t)      (* self._publisher.publish(message) *)
  | Trigger (trg : string)          (* a trigger method of the task is called *)
  | ToState (s : string)            (* a to_<s> method of the task is called *)
  | ThreadStart                     (* Thread(target=self.task_timer_thread).start() *)
  | Sleep (secs : Z).               (* time.sleep(secs) *)

(** ** The monad: node state, raised exception, trace of effects *)

Inductive res (A : Type) :=
  | Ret (a : A)
  | Raise (e : exn).
Arguments Ret {A} a.
Arguments Raise {A} e.

Record outcome (A : Type) := mkOutcome {
  value : res A;
  node : TaskMonitor;
  trace : list effect;
}.
Arguments mkOutcome {A} value node trace.
Arguments value {A} o.
Arguments node {A} o.
Arguments trace {A} o.

Definition M (A : Type) : Type := TaskMonitor -> outcome A.

#[global] Instance M_ret : MRet M :=
  fun A a n => mkOutcome (Ret a) n [].

#[global] Instance M_bind : MBind M :=
  fun A B f m n =>
    match m n with
    | mkOutcome (Ret a) n' tr =>
        match f a n' with
        | mkOutcome v n'' tr' => mkOutcome v n'' (tr ++ tr')
        end
    | mkOutcome (Raise e) n' tr => mkOutcome (Raise e) n' tr
    end.

Definition raise {A : Type} (e : exn) : M A :=
  fun n => mkOutcome (Raise e) n [].

(** [try: body except e: handler]: only the named exception is caught;
    what the body did to the node before raising stays done. *)
Definition try_except {A : Type} (body : M A) (e : exn) (handler : M A) : M A :=
  fun n =>
    match body n with
    | mkOutcome (Ret a) n' tr => mkOutcome (Ret a) n' tr
    | mkOutcome (Raise e') n' tr =>
        if exn_eqb e' e then
          match handler n' with
          | mkOutcome v n'' tr' => mkOutcome v n'' (tr ++ tr')
          end
        else mkOutcome (Raise e') n' tr
    end.

Definition gets {A : Type} (f : TaskMonitor -> A) : M A :=
  fun n => mkOutcome (Ret (f n)) n [].

Definition modify (f : TaskMonitor -> TaskMonitor) : M unit :=
  fun n => mkOutcome (Ret tt) (f n) [].

Definition emit (e : effect) : M unit :=
  fun n => mkOutcome (Ret tt) n [e].

(** Python's [pass], and a plain [return]. *)
Definition pass : M unit := mret tt.

(** ** Field assignments *)

Definition set_state (s : string) (t : Task) : Task :=
  mkTask (name t) (items t) (description t) (steps t) (transitions t)
         (machine t) (to_state_dict t) s.

Definition set_machine (m : Machine) (t : Task) : Task :=
  mkTask (name t) (items t) (description t) (steps t) (transitions t)
         m (to_state_dict t) (state t).

Definition set_task (t : Task) (n : TaskMonitor) : TaskMonitor :=
  mkTaskMonitor t (_current_step n) (_previous_step n) (_current_activity n)
                (_next_activity n) (_timer_active n) (_activity_action_dict n).

Definition set_current_step (s : string) (n : TaskMonitor) : TaskMonitor :=
  mkTaskMonitor (_task n) s (_previous_step n) (_current_activity n)
                (_next_activity n) (_timer_active n) (_activity_action_dict n).

Definition set_previous_step (s : option string) (n : TaskMonitor) : TaskMonitor :=
  mkTaskMonitor (_task n) (_current_step n) s (_current_activity n)
                (_next_activity n) (_timer_active n) (_activity_action_dict n).

Definition set_current_activity (a : option string) (n : TaskMonitor) : TaskMonitor :=
  mkTaskMonitor (_task n) (_current_step n) (_previous_step n) a
                (_next_activity n) (_timer_active n) (_activity_action_dict n).

Definition set_next_activity (a : option string) (n : TaskMonitor) : TaskMonitor :=
  mkTaskMonitor (_task n) (_current_step n) (_previous_step n) (_current_activity n)
                a (_timer_active n) (_activity_action_dict n).

Definition set_timer_active (b : bool) (n : TaskMonitor) : TaskMonitor :=
  mkTaskMonitor (_task n) (_current_step n) (_previous_step n) (_current_activity n)
                (_next_activity n) b (_activity_action_dict n).

(** ** Helpers standing for Python built-ins *)

(** [s.replace(old, new)] for one-character [old] and [new]. *)
Fixpoint replace (old new : Ascii.ascii) (s : string) : string :=
  match s with
  | EmptyString => EmptyString
  | String c s' =>
      String (if Ascii.eqb c old then new else c) (replace old new s')
  end.

(** [d[k]] on the ordered dictionary of states. *)
Fixpoint states_get (k : string) (l : list (string * State)) : option State :=
  match l with
  | [] => None
  | (k', v) :: l' => if decide (k' = k) then Some v else states_get k l'
  end.

(** In-place change of the state object stored under [k]. *)
Fixpoint states_alter (f : State -> State) (k : string)
    (l : list (string * State)) : list (string * State) :=
  match l with
  | [] => []
  | (k', v) :: l' =>
      if decide (k' = k) then (k', f v) :: l'
      else (k', v) :: states_alter f k l'
  end.

(** [list(d.keys())]. *)
Definition keys (l : list (string * State)) : list string := map fst l.

(** [l.index(x)]: position of the first occurrence. *)
Fixpoint index (x : string) (l : list string) : option nat :=
  match l with
  | [] => None
  | y :: l' => if decide (y = x) then Some O else S <$> index x l'
  end.

(** ** The state machine of the [transitions] library, as the code uses it *)

(** The first declared transition for a trigger out of a state. *)
Definition find_transition (trg st : string) (trs : list Transition) : option Transition :=
  find (fun tr => bool_decide (trigger tr = trg) && bool_decide (source tr = st)) trs.

(** Calling the trigger method [trg] of the task: from a state with no
    transition for [trg] the library raises [MachineError]; otherwise the
    first declared transition is taken, its destination being looked up
    among the registered states ([ValueError] when it is not one). *)
Definition call_trigger (trg : string) : M unit :=
  emit (Trigger trg);;
  t ← gets _task;
  match find_transition trg (state t) (transitions t) with
  | None => raise MachineError
  | Some tr =>
      match states_get (dest tr) (states (machine t)) with
      | None => raise ValueError
      | Some _ => modify (set_task (set_state (dest tr) t))
      end
  end.

(** Calling [to_<s>]: moves to [s] from any state. *)
Definition call_to_state (s : string) : M unit :=
  emit (ToState s);;
  t ← gets _task;
  modify (set_task (set_state s t)).

(** [self._task.machine.states[self._task.state].timer_length] *)
Definition read_timer_length : M Z :=
  t ← gets _task;
  match states_get (state t) (states (machine t)) with
  | None => raise KeyError
  | Some st =>
      match timer_length st with
      | None => raise AttributeError
      | Some z => mret z
      end
  end.

(** [self._task.machine.states[self._task.state].timer_length -= 1] *)
Definition decrement_timer_length : M unit :=
  z ← read_timer_length;
  t ← gets _task;
  modify (set_task (set_machine
    (mkMachine (states_alter (fun _ => mkState (Some (z - 1))) (state t)
                             (states (machine t)))) t)).

(** ** [TaskMonitor.publish_task_state_message] *)

Definition publish_task_state_message : M unit :=
  t ← gets _task;
  let task_name := name t in
  let task_description := description t in
  let task_items := items t in
  let steps := map (replace "_"%char " "%char) (steps t) in
  cur ← gets _current_step;
  let current_step := replace "_"%char " "%char cur in
  prev ← gets _previous_step;
  let previous_step := default "N/A" prev in
  act ← gets _current_activity;
  let current_activity := default "N/A" act in
  match find (fun tr => bool_decide (source tr = state t)) (transitions t) with
  | Some tr => modify (set_next_activity (Some (trigger tr)))
  | None => pass
  end;;
  next_activity ← gets _next_activity;
  remaining ← try_except read_timer_length AttributeError (mret (-1));
  emit (Publish (TaskUpdate.mk task_name task_description task_items steps
                   current_step previous_step current_activity next_activity
                   remaining)).

(** ** [TaskMonitor.task_timer_thread] *)

(** The body of [for i in range(int(loops))], [k] iterations. *)
Fixpoint timer_loop (k : nat) : M unit :=
  match k with
  | O => pass
  | S k' =>
      publish_task_state_message;;
      decrement_timer_length;;
      emit (Sleep 1);;
      timer_loop k'
  end.

(** What the thread does once the loop is over. *)
Definition timer_expire : M unit :=
  modify (set_timer_active false);;
  t ← gets _task;
  match index (state t) (keys (states (machine t))) with
  | None => raise ValueError
  | Some curr_idx =>
      match keys (states (machine t)) !! (curr_idx + 1)%nat with
      | None => raise IndexError
      | Some next_state =>
          match to_state_dict t !! next_state with
          | None => raise KeyError
          | Some target => call_to_state target
          end;;
          cur ← gets _current_step;
          modify (set_previous_step (Some cur));;
          t' ← gets _task;
          modify (set_current_step (state t'));;
          publish_task_state_message
      end
  end.

Definition task_timer_thread : M unit :=
  loops ← read_timer_length;
  timer_loop (Z.to_nat loops);;
  timer_expire.

(** ** [TaskMonitor.listener_callback] *)

Definition listener_callback (label_vec : list string) : M unit :=
  d ← gets _activity_action_dict;
  match find (fun a => bool_decide (is_Some (d !! a))) label_vec with
  | None =>
      match label_vec !! O with
      | None => raise IndexError
      | Some a => modify (set_current_activity (Some a))
      end;;
      publish_task_state_message
  | Some current_activity =>
      modify (set_current_activity (Some current_activity));;
      active ← gets _timer_active;
      if (active : bool) then pass
      else
        try_except
          (match d !! current_activity with
           | None => raise KeyError
           | Some trg => call_trigger trg
           end;;
           cur ← gets _current_step;
           modify (set_previous_step (Some cur));;
           t ← gets _task;
           modify (set_current_step (state t)))
          MachineError pass;;
        publish_task_state_message;;
        try_except
          (z ← read_timer_length;
           if bool_decide (0 < z) then
             modify (set_timer_active true);;
             emit ThreadStart
           else pass)
          AttributeError pass
  end.

(** ** [Task.__init__] and [TaskMonitor.__init__] *)

(** The task the source constructs.  The machine registers one state per
    step, in the order of [steps], and starts in the first; the state
    [steep_for_20_seconds] is then given its [timer_length]. *)
Definition Task_init : Task :=
  let steps :=
    [ "open_bottle_and_pour_water_into_cup";
      "place_tea_bag_into_cup";
      "steep_for_20_seconds";
      "enjoy" ] in
  let transitions :=
    [ mkTransition "open_bottle" "open_bottle_and_pour_water_into_cup"
                   "place_tea_bag_into_cup";
      mkTransition "make_tea" "place_tea_bag_into_cup" "steep_for_20_seconds" ] in
  let machine := mkMachine (map (fun s => (s, mkState None)) steps) in
  let machine :=
    mkMachine (states_alter (fun _ => mkState (Some 20)) "steep_for_20_seconds"
                            (states machine)) in
  mkTask "Making Tea"
         [ ("water bottle", 1); ("tea bag", 1); ("cup", 1) ]
         ("Open the water bottle and pour the water into a tea cup." ++
          " Place the tea bag in the cup." ++
          " Wait 20 seconds while the tea bag steeps, then drink and enjoy!")
         steps transitions machine
         (list_to_map (map (fun s => (s, s)) steps))
         "open_bottle_and_pour_water_into_cup".

(** The node before the constructor's closing call of
    [publish_task_state_message]. *)
Definition TaskMonitor_fields (t : Task) (d : gmap string string) : TaskMonitor :=
  mkTaskMonitor t (state t) None None None false d.

(** The constructor, for the source's task and activity dictionary. *)
Definition TaskMonitor_init : outcome unit :=
  publish_task_state_message
    (TaskMonitor_fields Task_init
       (list_to_map [ ("opening bottle", "open_bottle"); ("making tea", "make_tea") ])).

(** ** Reading a node and a trace *)

(** Running a handler from a node: the node it leaves behind. *)
Definition after {A : Type} (m : M A) (n : TaskMonitor) : TaskMonitor := node (m n).

(** The messages among a trace, oldest first. *)
Definition published (tr : list effect) : list TaskUpdate.t :=
  omap (fun e => match e with Publish m => Some m | _ => None end) tr.

(** The state object of the current state, when it is registered. *)
Definition current_state (n : TaskMonitor) : option State :=
  states_get (state (_task n)) (states (machine (_task n))).

(** What a stored [timer_length] shows up as in a message. *)
Definition remaining_of (st : State) : Z := default (-1) (timer_length st).

(** The candidate [listener_callback] settles on: the first label that is a
    key of the activity dictionary. *)
Definition matched_activity (n : TaskMonitor) (label_vec : list string) : option string :=
  find (fun a => bool_decide (is_Some (_activity_action_dict n !! a))) label_vec.

(** The first declared transition out of the current state. *)
Definition first_outgoing (n : TaskMonitor) : option Transition :=
  find (fun tr => bool_decide (source tr = state (_task n))) (transitions (_task n)).

(** The trigger [publish_task_state_message] reports: that of the first
    declared transition out of the current state, or else the value held
    so far. *)
Definition peek_next_expected_trigger (t : Task) (held : option string) : option string :=
  match find (fun tr => bool_decide (source tr = state t)) (transitions t) with
  | Some tr => Some (trigger tr)
  | None => held
  end.

(** The message built from a node, given the remaining time. *)
Definition message_of (n : TaskMonitor) (remaining : Z) : TaskUpdate.t :=
  TaskUpdate.mk (name (_task n)) (description (_task n)) (items (_task n))
    (map (replace "_"%char " "%char) (steps (_task n)))
    (replace "_"%char " "%char (_current_step n))
    (default "N/A" (_previous_step n))
    (default "N/A" (_current_activity n))
    (_next_activity n)
    remaining.

(** Calls that ask the machine to change state. *)
Definition is_transition_call (e : effect) : bool :=
  match e with
  | Trigger _ | ToState _ => true
  | _ => false
  end.

(** No transition is attempted along a trace. *)
Definition no_transition_attempt (tr : list effect) : Prop :=
  Forall (fun e => is_transition_call e = false) tr.

(** ** The nodes and traces the operations leave *)

(** The node [publish_task_state_message] leaves behind. *)
Definition publish_node (n : TaskMonitor) : TaskMonitor :=
  set_next_activity (peek_next_expected_trigger (_task n) (_next_activity n)) n.

(** The node after the stored duration of its current state became [z]. *)
Definition with_timer_length (z : Z) (n : TaskMonitor) : TaskMonitor :=
  set_task (set_machine
    (mkMachine (states_alter (fun _ => mkState (Some z)) (state (_task n))
                             (states (machine (_task n))))) (_task n)) n.

(** The node once the check that follows the publication is over: the
    flag is raised when the current state stores a positive duration. *)
Definition timer_check_node (st : State) (n : TaskMonitor) : TaskMonitor :=
  if bool_decide (0 < remaining_of st) then set_timer_active true n else n.

(** The trace of that check. *)
Definition timer_check_trace (st : State) : list effect :=
  if bool_decide (0 < remaining_of st) then [ThreadStart] else [].

(** The trace of [k] rounds of the loop that start with the stored duration
    [z]: each round publishes the duration it finds, then sleeps a second. *)
Fixpoint tick_trace (k : nat) (z : Z) (n : TaskMonitor) : list effect :=
  match k with
  | O => []
  | S k' => Publish (message_of n z) :: Sleep 1 :: tick_trace k' (z - 1) n
  end.

(** The node after [k] rounds that start with the stored duration [z]. *)
Definition loop_node (k : nat) (z : Z) (n : TaskMonitor) : TaskMonitor :=
  match k with
  | O => n
  | S _ => with_timer_length (z - Z.of_nat k) (publish_node n)
  end.

(** The node once the timer has expired and the machine was moved to
    [next_state]. *)
Definition expired_node (next_state : string) (n : TaskMonitor) : TaskMonitor :=
  publish_node
    (set_current_step next_state
       (set_previous_step (Some (_current_step n))
          (set_task (set_state next_state (_task n))
             (set_timer_active false n)))).

(** The durations the messages of the loop carry, when the loop is started
    for the duration [d] on the node [n]. *)
Definition tick_remaining (d : Z) (n : TaskMonitor) : list Z :=
  map TaskUpdate.time_remaining_until_next_task
      (published (trace (timer_loop (Z.to_nat d) n))).

(** The sequence [d-1, d-2, …, 0] that the timer is described to report. *)
Definition described_remaining (d : Z) : list Z :=
  map (fun i => d - 1 - Z.of_nat i) (seq 0 (Z.to_nat d)).

(** ** Notions the properties are stated with *)

(** The operations of the node. *)
Inductive operation :=
  | Listener (label_vec : list string)
  | PublishState
  | TimerThread.

(** The handler an operation stands for. *)
Definition perform (op : operation) : M unit :=
  match op with
  | Listener label_vec => listener_callback label_vec
  | PublishState => publish_task_state_message
  | TimerThread => task_timer_thread
  end.

(** [preserves R m]: whatever [m] does, returning or raising, the node it
    leaves is related by [R] to the node it started from. *)
Definition preserves {A : Type} (R : relation TaskMonitor) (m : M A) : Prop :=
  forall n, R n (node (m n)).

(** The part of the task definition that is given once and read thereafter:
    name, description, items, steps, transitions, the names and order of the
    machine's states, the [to_<state>] table and the activity dictionary. *)
Definition definition_of (n : TaskMonitor) :=
  (name (_task n), description (_task n), items (_task n), steps (_task n),
   transitions (_task n), keys (states (machine (_task n))),
   to_state_dict (_task n), _activity_action_dict n).

(** That part is the one of before. *)
Definition same_definition : relation TaskMonitor :=
  fun n n' => definition_of n' = definition_of n.

(** The stored durations are those of before. *)
Definition same_durations : relation TaskMonitor :=
  fun n n' => machine (_task n') = machine (_task n).

(** The tracked step and the machine's state are those of before. *)
Definition same_step : relation TaskMonitor :=
  fun n n' =>
    _current_step n' = _current_step n /\ state (_task n') = state (_task n).

(** The step the node tracks is the machine's state. *)
Definition consistent (n : TaskMonitor) : Prop :=
  _current_step n = state (_task n).

(** The held value is nothing, or the trigger of the first declared
    transition out of some state. *)
Definition next_activity_computed (n : TaskMonitor) : Prop :=
  match _next_activity n with
  | None => True
  | Some v =>
      exists s tr,
        find (fun tr => bool_decide (source tr = s)) (transitions (_task n)) = Some tr /\
        trigger tr = v
  end.

(** A held value of that kind stays one. *)
Definition keeps_next_activity_computed : relation TaskMonitor :=
  fun n n' => next_activity_computed n -> next_activity_computed n'.

(** A task whose machine was built from its steps, as [Task.__init__] does:
    one state per step in the order of [steps], names unique, and a
    [to_<name>] entry for each. *)
Record task_built (t : Task) : Prop := mk_task_built {
  built_keys : keys (states (machine t)) = steps t;
  built_nodup : NoDup (steps t);
  built_to_state : Forall (fun s => to_state_dict t !! s = Some s) (steps t);
}.

(** ** Sessions *)

(** The node the constructor leaves. *)
Definition monitor0 : TaskMonitor := node TaskMonitor_init.

(** After [opening bottle] was observed: at [place_tea_bag_into_cup]. *)
Definition placing : TaskMonitor :=
  after (listener_callback ["opening bottle"]) monitor0.

(** After [making tea] was observed: at [steep_for_20_seconds], the timer
    thread started. *)
Definition steeping : TaskMonitor :=
  after (listener_callback ["making tea"]) placing.

(** After the timer thread has run: at [enjoy]. *)
Definition enjoying : TaskMonitor := after task_timer_thread steeping.

(** A task with a way back into its timed step: the tea is steeped for three
    seconds, tasted, and steeped again when it is found too weak. *)
Definition Task_resteep : Task :=
  let steps := [ "place_tea_bag_into_cup"; "steep"; "taste" ] in
  let transitions :=
    [ mkTransition "make_tea" "place_tea_bag_into_cup" "steep";
      mkTransition "steep_again" "taste" "steep" ] in
  let machine := mkMachine (map (fun s => (s, mkState None)) steps) in
  let machine :=
    mkMachine (states_alter (fun _ => mkState (Some 3)) "steep" (states machine)) in
  mkTask "Steeping Tea" [ ("tea bag", 1); ("cup", 1) ]
         "Steep the tea, taste it, and steep it again if it is too weak."
         steps transitions machine
         (list_to_map (map (fun s => (s, s)) steps))
         "place_tea_bag_into_cup".

(** The node a constructor for that task leaves. *)
Definition resteep0 : TaskMonitor :=
  after publish_task_state_message
    (TaskMonitor_fields Task_resteep
       (list_to_map [ ("making tea", "make_tea");
                      ("putting bag back", "steep_again") ])).

(** At [steep], the timer thread started. *)
Definition resteeping : TaskMonitor :=
  after (listener_callback ["making tea"]) resteep0.

(** The timer thread is over: at [taste]. *)
Definition tasting : TaskMonitor := after task_timer_thread resteeping.

(** ** Sessions of operations *)

(** The node after a sequence of operations, each run to its end. *)
Definition run_session (ops : list operation) (n : TaskMonitor) : TaskMonitor :=
  foldl (fun n op => after (perform op) n) n ops.

(** A node as the constructor sets it up for a task whose machine was
    built from its steps: the machine's state is a registered state, every
    transition leads to a step, and the node tracks the machine's state. *)
Record well_formed (n : TaskMonitor) : Prop := mk_well_formed {
  wf_built : task_built (_task n);
  wf_dests : Forall (fun tr => dest tr ∈ steps (_task n)) (transitions (_task n));
  wf_registered : is_Some (current_state n);
  wf_consistent : consistent n;
}.

(** Every effect of a run satisfies [P]. *)
Definition only_effects {A : Type} (P : effect -> Prop) (m : M A) : Prop :=
  forall n, Forall P (trace (m n)).

(** What the timer thread does to the outside: it publishes, sleeps and
    calls a [to_<state>] method. *)
Definition timer_effect (e : effect) : Prop :=
  match e with
  | Publish _ | Sleep _ | ToState _ => True
  | Trigger _ | ThreadStart => False
  end.

(** A node that the constructor leaves at the timed step of [Task_resteep],
    for a machine whose initial state is that step. *)
Definition steep_first : TaskMonitor :=
  after publish_task_state_message
    (TaskMonitor_fields (set_state "steep" Task_resteep)
       (list_to_map [ ("making tea", "make_tea");
                      ("putting bag back", "steep_again") ])).

(** A task whose timed step is its last one. *)
Definition Task_timed_last : Task :=
  let steps := [ "place_tea_bag_into_cup"; "steep" ] in
  let transitions :=
    [ mkTransition "make_tea" "place_tea_bag_into_cup" "steep" ] in
  let machine := mkMachine (map (fun s => (s, mkState None)) steps) in
  let machine :=
    mkMachine (states_alter (fun _ => mkState (Some 2)) "steep" (states machine)) in
  mkTask "Steeping Tea" [ ("tea bag", 1); ("cup", 1) ]
         "Put the tea bag into the cup and let it steep."
         steps transitions machine
         (list_to_map (map (fun s => (s, s)) steps))
         "place_tea_bag_into_cup".

(** That task at its timed step, the timer thread started. *)
Definition steeping_last : TaskMonitor :=
  after (listener_callback ["making tea"])
    (after publish_task_state_message
       (TaskMonitor_fields Task_timed_last
          (list_to_map [ ("making tea", "make_tea") ]))).

(** What the activity handler does to the outside: it calls a trigger,
    publishes and starts the timer thread. *)
Definition listener_effect (e : effect) : Prop :=
  match e with
  | Trigger _ | Publish _ | ThreadStart => True
  | ToState _ | Sleep _ => False
  end.

(** The character [c] occurs in the string [s]. *)
Definition occurs (c : Ascii.ascii) (s : string) : Prop :=
  In c (list_ascii_of_string s).

(** ** The activity detector of [swinb_detect_activities.py]

    [SwinBTransformer] wraps a torch model.  What torch, the [swin] and
    [utils] modules and the file system do is taken as given: a [World]
    provides the checkpoint loader, the device transfer, whether CUDA is
    there, the labels a labels file holds, the pre-processing of the
    frames (lines 134 to 160 of the source), the move of a tensor to the
    CUDA device (line 164), and the five best class indices and their
    scores that the model, the soft-max and [topk] yield for a tensor
    (lines 167 to 177).  Each of the last three may raise, as torch does
    without a CUDA device, for a tensor and a model on different devices,
    or for fewer than five classes.  Scores are floats in the source; all
    the code does with them is to compare them to the threshold, which is
    [gt] here. *)
Module SwinB.

Inductive exn :=
  | AssertionError
  | RuntimeError
  | IndexError
  | AttributeError.

Inductive res (A : Type) :=
  | Ret (a : A)
  | Raise (e : exn).
Arguments Ret {A} a.
Arguments Raise {A} e.

Record World := mkWorld {
  score : Type;
  gt : score -> score -> bool;              (* [a > b] on scores *)
  model : Type;
  frame : Type;
  tensor : Type;
  swin_b : string -> Z -> model;            (* [swin_b(checkpoint_path, num_classes)] *)
  eval : model -> model;                    (* [model.eval()] *)
  to_device : model -> string -> model;     (* [model.to(device=…)] *)
  cuda_is_available : bool;                 (* [torch.cuda.is_available()] *)
  read_labels : string -> list string;      (* the stripped lines of a labels file *)
  (* the pre-processing, given [_sampling_rate] and [_num_frames] *)
  prepare : Z -> Z -> list frame -> res tensor;
  tensor_cuda : tensor -> res tensor;       (* [frames.cuda()] *)
  (* [self._model(frames)], the soft-max and [topk(k=5)] *)
  predict : model -> tensor -> res (list nat * list score);
  inherited_attributes : list string;       (* attributes the base classes provide *)
}.

(** Calls that reach outside the object. *)
Inductive effect :=
  | LoadCheckpoint (checkpoint_path : string) (num_classes : Z)
  | Transfer (device : string).

Section Detector.
Context (W : World).

(** The attributes [__init__] assigns; [_mean], [_std], [_crop_size],
    [_frames_per_second] and [transform] are constants of the
    pre-processing and left to the world. *)
Record SwinBTransformer := mkSwinBTransformer {
  _checkpoint_path : string;
  _num_classes : Z;
  _torch_device : string;
  _det_threshold : score W;
  _num_frames : Z;
  _sampling_rate : Z;
  _labels_file : string;
  _model : option (model W);
  _model_device : option string;
  _labels : list string;
}.

(** [SwinBTransformer.__init__] *)
Definition init (checkpoint_path : string) (num_classes : Z) (labels_file : string)
    (num_frames sampling_rate : Z) (torch_device : string)
    (det_threshold : score W) : SwinBTransformer :=
  mkSwinBTransformer checkpoint_path num_classes torch_device det_threshold
    num_frames sampling_rate labels_file None None (read_labels W labels_file).

(** The names of the attributes an instance has: those of its base classes
    and those [__init__] assigns. *)
Definition attribute_names : list string :=
  (inherited_attributes W ++
   [ "_checkpoint_path"; "_num_classes"; "_torch_device"; "_det_threshold";
     "_num_frames"; "_sampling_rate"; "_labels_file"; "_model"; "_model_device";
     "_mean"; "_std"; "_crop_size"; "_frames_per_second"; "transform";
     "_labels" ])%list.

(** The outcome of a method: its result, the object it leaves and the calls
    it made. *)
Definition outcome (A : Type) : Type := res A * SwinBTransformer * list effect.

(** [SwinBTransformer.get_model] *)
Definition get_model (self : SwinBTransformer) : outcome (model W) :=
  match _model self with
  | Some model => (Ret model, self, [])
  | None =>
      let model := swin_b W (_checkpoint_path self) (_num_classes self) in
      let model := eval W model in
      let loaded := LoadCheckpoint (_checkpoint_path self) (_num_classes self) in
      if negb (String.eqb (_torch_device self) "cpu") then
        if cuda_is_available W then
          let model_device := _torch_device self in
          let model := to_device W model model_device in
          (Ret model,
           mkSwinBTransformer (_checkpoint_path self) (_num_classes self)
             (_torch_device self) (_det_threshold self) (_num_frames self)
             (_sampling_rate self) (_labels_file self)
             (Some model) (Some model_device) (_labels self),
           [loaded; Transfer model_device])
        else (Raise RuntimeError, self, [loaded])
      else
        let model_device := _torch_device self in
        (Ret model,
         mkSwinBTransformer (_checkpoint_path self) (_num_classes self)
           (_torch_device self) (_det_threshold self) (_num_frames self)
           (_sampling_rate self) (_labels_file self)
           (Some model) (Some model_device) (_labels self),
         [loaded])
  end.

(** [[self._labels[int(i)] for i in pred_class_indices]] *)
Fixpoint class_names (labels : list string) (indices : list nat) : res (list string) :=
  match indices with
  | [] => Ret []
  | i :: indices' =>
      match labels !! i with
      | None => Raise IndexError
      | Some l =>
          match class_names labels indices' with
          | Ret ls => Ret (l :: ls)
          | Raise e => Raise e
          end
      end
  end.

(** The loop over [enumerate(pred_class_names)], from position [idx] on. *)
Fixpoint over_threshold (idx : nat) (pred_class_names : list string)
    (pred_values : list (score W)) (threshold : score W) : res (list string) :=
  match pred_class_names with
  | [] => Ret []
  | p :: names' =>
      match pred_values !! idx with
      | None => Raise IndexError
      | Some v =>
          match over_threshold (S idx) names' pred_values threshold with
          | Ret predictions =>
              Ret (if gt W v threshold then p :: predictions else predictions)
          | Raise e => Raise e
          end
      end
  end.

(** [SwinBTransformer.detect_activities].  The test [if self._model.cuda:]
    of line 163 reads a bound method, which is true of every model, so the
    frames are moved to the CUDA device whatever the configured device. *)
Definition detect_activities (self : SwinBTransformer) (frame_iter : list (frame W))
    : outcome (list string) :=
  if negb (Z.eqb (Z.of_nat (List.length frame_iter))
                 (_sampling_rate self * _num_frames self))
  then (Raise AssertionError, self, [])
  else
    match get_model self with
    | (Raise e, self', tr) => (Raise e, self', tr)
    | (Ret model, self', tr) =>
        match prepare W (_sampling_rate self') (_num_frames self') frame_iter with
        | Raise e => (Raise e, self', tr)
        | Ret frames =>
            match _model self' with
            | None => (Raise AttributeError, self', tr)
            | Some the_model =>
                match tensor_cuda W frames with
                | Raise e => (Raise e, self', tr)
                | Ret frames =>
                    match predict W the_model frames with
                    | Raise e => (Raise e, self', tr)
                    | Ret (pred_class_indices, pred_values) =>
                        match class_names (_labels self') pred_class_indices with
                        | Raise e => (Raise e, self', tr)
                        | Ret pred_class_names =>
                            (over_threshold 0 pred_class_names pred_values
                                            (_det_threshold self'),
                             self', tr)
                        end
                    end
                end
            end
        end
    end.

(** [SwinBTransformer.get_config]: the dictionary is built entry by entry,
    each value read off the instance; an entry is represented by the name
    of the attribute it reads. *)
Definition get_config (self : SwinBTransformer) : res (list (string * string)) :=
  let fix read (entries : list (string * string)) : res (list (string * string)) :=
    match entries with
    | [] => Ret []
    | (key, attribute) :: entries' =>
        if bool_decide (attribute ∈ attribute_names) then
          match read entries' with
          | Ret config => Ret ((key, attribute) :: config)
          | Raise e => Raise e
          end
        else Raise AttributeError
    end in
  read [ ("cuda_device", "_cuda_device"); ("num_classes", "_num_classes");
         ("det_threshold", "_det_threshold"); ("checkpoint_path", "_checkpoint_path");
         ("num_frames", "_num_frames"); ("sampling_rate", "_sampling_rate");
         ("labels_file", "_labels_file") ].

End Detector.

Arguments mkSwinBTransformer {W}.
Arguments _checkpoint_path {W}.
Arguments _num_classes {W}.
Arguments _torch_device {W}.
Arguments _det_threshold {W}.
Arguments _num_frames {W}.
Arguments _sampling_rate {W}.
Arguments _labels_file {W}.
Arguments _model {W}.
Arguments _model_device {W}.
Arguments _labels {W}.
Arguments get_model {W}.
Arguments detect_activities {W}.
Arguments get_config {W}.
Arguments over_threshold {W}.

End SwinB.

(** A world to run the detector in: scores are percentages, a model is
    named after its checkpoint, a tensor is the list of the frames, a
    labels file holds six labels ([short.txt] only two), and the five best
    classes of a model with six are always the first five, two of them well
    above the others.  Without a CUDA device, moving a tensor there raises;
    a model that was not transferred to a device cannot be applied to a
    tensor that is on the CUDA device. *)
Definition world_with (cuda_there : bool) : SwinB.World :=
  SwinB.mkWorld Z Z.gtb string unit (list unit)
    (fun checkpoint_path _ => checkpoint_path)
    (fun model => model)
    (fun model device => (model ++ "@" ++ device)%string)
    cuda_there
    (fun labels_file =>
       if String.eqb labels_file "short.txt"
       then [ "opening bottle"; "making tea" ]
       else [ "opening bottle"; "making tea"; "stirring"; "pouring";
              "drinking"; "waiting" ])
    (fun _ _ frame_iter => SwinB.Ret frame_iter)
    (fun frames => if cuda_there then SwinB.Ret frames
                   else SwinB.Raise SwinB.RuntimeError)
    (fun model _ =>
       match String.index 0 "@" model with
       | Some _ => SwinB.Ret ([ 1%nat; 0%nat; 4%nat; 2%nat; 3%nat ], [ 90; 80; 10; 5; 1 ])
       | None => SwinB.Raise SwinB.RuntimeError
       end)
    [].

(** The world without a CUDA device. *)
Definition small_world : SwinB.World := world_with false.

(** The world with one. *)
Definition cuda_world : SwinB.World := world_with true.

(** A detector in the world without CUDA, for two frames at sampling
    rate 1. *)
Definition small_detector : SwinB.SwinBTransformer small_world :=
  SwinB.init small_world "swin.ckpt" 6 "labels.txt" 2 1 "cpu" 75.

(** The same detector, asked to run on a CUDA device. *)
Definition cuda_detector : SwinB.SwinBTransformer small_world :=
  SwinB.init small_world "swin.ckpt" 6 "labels.txt" 2 1 "cuda:0" 75.

(** A detector on the CUDA device of the world that has one. *)
Definition gpu_detector : SwinB.SwinBTransformer cuda_world :=
  SwinB.init cuda_world "swin.ckpt" 6 "labels.txt" 2 1 "cuda:0" 75.

(** The same detector, with a labels file that is too short. *)
Definition short_detector : SwinB.SwinBTransformer cuda_world :=
  SwinB.init cuda_world "swin.ckpt" 6 "short.txt" 2 1 "cuda:0" 75.

(** The labels of the predictions whose score exceeds the threshold. *)
Definition selected_labels {W : SwinB.World} (labels : list string)
    (threshold : SwinB.score W) (indices : list nat) (values : list (SwinB.score W))
    : list string :=
  omap (fun '(i, v) => if SwinB.gt W v threshold then labels !! i else None)
       (zip indices values).

(** ** The next activity while the machine stays among given states *)

(** The state the expiry of a timer moves the machine to from the state
    [s]: the one registered after [s], through the [to_<state>] table. *)
Definition advance_of (t : Task) (s : string) : option string :=
  match index s (keys (states (machine t))) with
  | None => None
  | Some curr_idx =>
      match keys (states (machine t)) !! (curr_idx + 1)%nat with
      | None => None
      | Some next_state => to_state_dict t !! next_state
      end
  end.

(** The expiry of a timer in one of the states [allowed] leads to one of
    them. *)
Definition advance_stays (t : Task) (allowed : list string) : Prop :=
  Forall (fun s => from_option (fun target => bool_decide (target ∈ allowed)) true
                               (advance_of t s) = true) allowed.

(** The node belongs to a session of the task [t0] in which the machine
    has stayed among the states [allowed] and [_next_activity] holds the
    trigger of [tr]. *)
Record held_for (t0 : Task) (tr : Transition) (allowed : list string)
    (n : TaskMonitor) : Prop := mk_held_for {
  held_transitions : transitions (_task n) = transitions t0;
  held_keys : keys (states (machine (_task n))) = keys (states (machine t0));
  held_to_state : to_state_dict (_task n) = to_state_dict t0;
  held_state : state (_task n) ∈ allowed;
  held_value : _next_activity n = Some (trigger tr);
}.

(** An effect that, when it is a publication, names the trigger [trg] as
    next activity. *)
Definition names_trigger (trg : string) (e : effect) : Prop :=
  match e with
  | Publish m => TaskUpdate.next_activity m = Some trg
  | _ => True
  end.

(** [maintains I P m]: run from a node that satisfies [I], the operation
    [m] leaves a node that satisfies [I], whether it returns or raises, and
    every effect of the run satisfies [P]. *)
Definition maintains {A : Type} (I : TaskMonitor -> Prop) (P : effect -> Prop)
    (m : M A) : Prop :=
  forall n, I n -> I (node (m n)) /\ Forall P (trace (m n)).

(** * Properties *)

(** ** The association list of states *)

Lemma states_get_elem_of (k : string) (l : list (string * State)) :
  is_Some (states_get k l) <-> k ∈ keys l.
Proof.
  induction l as [|[k' v] l IH]; cbn.
  - split; [intros [? ?]; discriminate | intros H; inversion H].
  - destruct (decide (k' = k)) as [->|Hne].
    + split; [intros _; left | eauto].
    + rewrite IH. split; [intros H; by right | intros H].
      inversion H; subst; [congruence | done].
Qed.

Lemma keys_states_alter (f : State -> State) (k : string) (l : list (string * State)) :
  keys (states_alter f k l) = keys l.
Proof.
  induction l as [|[k' v] l IH]; cbn; [done|].
  destruct (decide (k' = k)); cbn; [done|]. by f_equal.
Qed.

Lemma states_get_alter (f : State -> State) (k k' : string) (l : list (string * State)) :
  states_get k' (states_alter f k l) =
  if decide (k = k') then f <$> states_get k' l else states_get k' l.
Proof.
  induction l as [|[k0 v] l IH]; cbn.
  - by destruct (decide (k = k')).
  - destruct (decide (k0 = k)) as [->|Hne]; cbn.
    + destruct (decide (k = k')) as [->|Hne']; cbn; [done|].
      by destruct (decide (k = k')).
    + destruct (decide (k0 = k')) as [->|Hne']; cbn.
      * by destruct (decide (k = k')); [congruence|].
      * exact IH.
Qed.

Lemma states_alter_alter (v w : State) (k : string) (l : list (string * State)) :
  states_alter (fun _ => w) k (states_alter (fun _ => v) k l) =
  states_alter (fun _ => w) k l.
Proof.
  induction l as [|[k0 u] l IH]; cbn; [done|].
  destruct (decide (k0 = k)) as [->|Hne]; cbn.
  - by destruct (decide (k = k)).
  - destruct (decide (k0 = k)); [congruence|]. by f_equal.
Qed.

Lemma states_alter_same (v : State) (k : string) (l : list (string * State)) :
  states_get k l = Some v -> states_alter (fun _ => v) k l = l.
Proof.
  induction l as [|[k0 u] l IH]; cbn; [done|].
  destruct (decide (k0 = k)) as [->|Hne]; [congruence|].
  intros H. by rewrite IH.
Qed.

Lemma index_lookup (x : string) (l : list string) (i : nat) :
  NoDup l -> l !! i = Some x -> index x l = Some i.
Proof.
  intros Hnd. revert i. induction Hnd as [|y l Hy Hnd IH]; intros i; [done|].
  destruct i as [|i]; cbn.
  - intros [= ->]. by destruct (decide (x = x)).
  - intros Hi. destruct (decide (y = x)) as [->|Hne].
    + exfalso. apply Hy. by eapply list_elem_of_lookup_2.
    + by rewrite (IH _ Hi).
Qed.

(** ** What each operation does to a node *)

(** Unfolds the monad's operations so that a run computes. *)
Ltac run :=
  unfold try_except, pass, gets, modify, emit, raise,
    mbind, M_bind, mret, M_ret in *;
  cbn in *.

Lemma set_next_activity_same (n : TaskMonitor) :
  set_next_activity (_next_activity n) n = n.
Proof. by destruct n. Qed.

Lemma publish_task_state_message_run (n : TaskMonitor) :
  publish_task_state_message n =
  match current_state n with
  | None => mkOutcome (Raise KeyError) (publish_node n) []
  | Some st =>
      mkOutcome (Ret tt) (publish_node n)
                [Publish (message_of (publish_node n) (remaining_of st))]
  end.
Proof.
  unfold publish_task_state_message, publish_node, peek_next_expected_trigger,
    current_state, remaining_of, read_timer_length, message_of.
  run.
  destruct (find _ (transitions (_task n))) as [tr|]; cbn.
  - destruct (states_get _ _) as [[[z|]]|]; cbn; reflexivity.
  - rewrite set_next_activity_same.
    destruct (states_get _ _) as [[[z|]]|]; cbn; reflexivity.
Qed.

Lemma read_timer_length_run (n : TaskMonitor) :
  read_timer_length n =
  match current_state n with
  | None => mkOutcome (Raise KeyError) n []
  | Some st =>
      match timer_length st with
      | None => mkOutcome (Raise AttributeError) n []
      | Some z => mkOutcome (Ret z) n []
      end
  end.
Proof.
  unfold read_timer_length, current_state. run.
  destruct (states_get _ _) as [[[z|]]|]; reflexivity.
Qed.

Lemma call_trigger_run (trg : string) (n : TaskMonitor) :
  call_trigger trg n =
  match find_transition trg (state (_task n)) (transitions (_task n)) with
  | None => mkOutcome (Raise MachineError) n [Trigger trg]
  | Some tr =>
      match states_get (dest tr) (states (machine (_task n))) with
      | None => mkOutcome (Raise ValueError) n [Trigger trg]
      | Some _ =>
          mkOutcome (Ret tt) (set_task (set_state (dest tr) (_task n)) n)
                    [Trigger trg]
      end
  end.
Proof.
  unfold call_trigger. run.
  destruct (find_transition _ _ _) as [tr|]; cbn; [|reflexivity].
  destruct (states_get _ _); reflexivity.
Qed.

#[global] Arguments publish_task_state_message : simpl never.
#[global] Arguments read_timer_length : simpl never.
#[global] Arguments call_trigger : simpl never.

(** The fields [publish_task_state_message] leaves alone. *)
Lemma publish_node_fields (n : TaskMonitor) :
  _task (publish_node n) = _task n /\
  _current_step (publish_node n) = _current_step n /\
  _previous_step (publish_node n) = _previous_step n /\
  _current_activity (publish_node n) = _current_activity n /\
  _timer_active (publish_node n) = _timer_active n /\
  _activity_action_dict (publish_node n) = _activity_action_dict n.
Proof. by destruct n. Qed.

Lemma publish_node_idem (n : TaskMonitor) :
  publish_node (publish_node n) = publish_node n.
Proof.
  unfold publish_node, peek_next_expected_trigger. cbn.
  by destruct (find _ _).
Qed.

Lemma matched_activity_none (n : TaskMonitor) (label_vec : list string) :
  Forall (fun a => _activity_action_dict n !! a = None) label_vec ->
  matched_activity n label_vec = None.
Proof.
  unfold matched_activity. induction 1 as [|a l Ha _ IH]; cbn; [done|].
  rewrite bool_decide_eq_false_2; [done|]. rewrite Ha. by intros [? ?].
Qed.

(** The observation is handled while a timer runs and one of its labels is
    in the dictionary. *)
Lemma listener_callback_timer_active (n : TaskMonitor) (label_vec : list string) (a : string) :
  _timer_active n = true ->
  matched_activity n label_vec = Some a ->
  listener_callback label_vec n =
  mkOutcome (Ret tt) (set_current_activity (Some a) n) [].
Proof.
  unfold matched_activity, listener_callback. intros Hact Hm. run.
  rewrite Hm. cbn. rewrite Hact. reflexivity.
Qed.

(** No label of a non-empty observation is in the dictionary. *)
Lemma listener_callback_unmatched (n : TaskMonitor) (a : string) (label_vec : list string) :
  matched_activity n (a :: label_vec) = None ->
  listener_callback (a :: label_vec) n =
  let n' := set_current_activity (Some a) n in
  match current_state n with
  | None => mkOutcome (Raise KeyError) (publish_node n') []
  | Some st =>
      mkOutcome (Ret tt) (publish_node n')
                [Publish (message_of (publish_node n') (remaining_of st))]
  end.
Proof.
  unfold matched_activity, listener_callback. intros Hm. run.
  rewrite Hm. cbn. rewrite publish_task_state_message_run.
  unfold current_state. cbn. by destruct (states_get _ _).
Qed.

(** The observation carries no label at all. *)
Lemma listener_callback_empty (n : TaskMonitor) :
  listener_callback [] n = mkOutcome (Raise IndexError) n [].
Proof. reflexivity. Qed.

(** A label is matched, no timer runs, and the machine has no transition for
    the label's trigger out of the current state. *)
Lemma listener_callback_no_transition
    (n : TaskMonitor) (label_vec : list string) (a trg : string) (st : State) :
  _timer_active n = false ->
  matched_activity n label_vec = Some a ->
  _activity_action_dict n !! a = Some trg ->
  find_transition trg (state (_task n)) (transitions (_task n)) = None ->
  current_state n = Some st ->
  listener_callback label_vec n =
  let n' := publish_node (set_current_activity (Some a) n) in
  mkOutcome (Ret tt) (timer_check_node st n')
    (Trigger trg :: Publish (message_of n' (remaining_of st)) :: timer_check_trace st).
Proof.
  unfold matched_activity, listener_callback, timer_check_node, timer_check_trace.
  intros Hact Hm Hd Hf Hst. run.
  rewrite Hm. cbn. rewrite Hact, Hd, call_trigger_run. cbn. rewrite Hf. cbn.
  rewrite publish_task_state_message_run. unfold current_state in *. cbn.
  rewrite Hst. cbn. rewrite read_timer_length_run. unfold current_state. cbn.
  rewrite Hst. unfold remaining_of.
  destruct (timer_length st) as [z|]; cbn; [|reflexivity].
  destruct (bool_decide (0 < z)); reflexivity.
Qed.

(** A label is matched, no timer runs, and the machine takes the transition
    [tr] to a registered state [st']. *)
Lemma listener_callback_transition
    (n : TaskMonitor) (label_vec : list string) (a trg : string)
    (tr : Transition) (st' : State) :
  _timer_active n = false ->
  matched_activity n label_vec = Some a ->
  _activity_action_dict n !! a = Some trg ->
  find_transition trg (state (_task n)) (transitions (_task n)) = Some tr ->
  states_get (dest tr) (states (machine (_task n))) = Some st' ->
  listener_callback label_vec n =
  let n' :=
    publish_node
      (set_current_step (dest tr)
         (set_previous_step (Some (_current_step n))
            (set_task (set_state (dest tr) (_task n))
               (set_current_activity (Some a) n)))) in
  mkOutcome (Ret tt) (timer_check_node st' n')
    (Trigger trg :: Publish (message_of n' (remaining_of st')) :: timer_check_trace st').
Proof.
  unfold matched_activity, listener_callback, timer_check_node, timer_check_trace.
  intros Hact Hm Hd Hf Hst. run.
  rewrite Hm. cbn. rewrite Hact, Hd, call_trigger_run. cbn. rewrite Hf, Hst. cbn.
  rewrite publish_task_state_message_run. unfold current_state. cbn.
  rewrite Hst. cbn. rewrite read_timer_length_run. unfold current_state. cbn.
  rewrite Hst. unfold remaining_of.
  destruct (timer_length st') as [z|]; cbn; [|reflexivity].
  destruct (bool_decide (0 < z)); reflexivity.
Qed.

(** ** The timer thread *)

Lemma publish_node_with_timer_length (z : Z) (n : TaskMonitor) :
  publish_node (with_timer_length z n) = with_timer_length z (publish_node n).
Proof. reflexivity. Qed.

Lemma with_timer_length_twice (z w : Z) (n : TaskMonitor) :
  with_timer_length w (with_timer_length z n) = with_timer_length w n.
Proof.
  unfold with_timer_length, set_task, set_machine. cbn.
  by rewrite states_alter_alter.
Qed.

Lemma current_state_with_timer_length (z : Z) (n : TaskMonitor) (st : State) :
  current_state n = Some st ->
  current_state (with_timer_length z n) = Some (mkState (Some z)).
Proof.
  unfold current_state, with_timer_length. cbn. intros H.
  rewrite states_get_alter, H. by destruct (decide _).
Qed.

Lemma current_state_publish_node (n : TaskMonitor) :
  current_state (publish_node n) = current_state n.
Proof. reflexivity. Qed.

Lemma decrement_timer_length_run (n : TaskMonitor) (st : State) (z : Z) :
  current_state n = Some st ->
  timer_length st = Some z ->
  decrement_timer_length n = mkOutcome (Ret tt) (with_timer_length (z - 1) n) [].
Proof.
  intros Hst Hz. unfold decrement_timer_length. run.
  rewrite read_timer_length_run, Hst, Hz. reflexivity.
Qed.

#[global] Arguments decrement_timer_length : simpl never.

Lemma tick_trace_with_timer_length (k : nat) (z w : Z) (n : TaskMonitor) :
  tick_trace k z (with_timer_length w n) = tick_trace k z n.
Proof.
  revert z. induction k as [|k IH]; intros z; cbn; [done|]. by rewrite IH.
Qed.

Lemma timer_loop_run (k : nat) :
  forall (n : TaskMonitor) (st : State) (z : Z),
    current_state n = Some st ->
    timer_length st = Some z ->
    timer_loop k n =
    mkOutcome (Ret tt) (loop_node k z n) (tick_trace k z (publish_node n)).
Proof.
  induction k as [|k IH]; intros n st z Hst Hz; [reflexivity|].
  cbn [timer_loop]. run.
  rewrite publish_task_state_message_run, Hst. cbn.
  rewrite (decrement_timer_length_run _ st z); [|done..]. cbn.
  rewrite (IH _ (mkState (Some (z - 1))) (z - 1));
    [|by eapply current_state_with_timer_length|done].
  unfold remaining_of. rewrite Hz. cbn.
  rewrite publish_node_with_timer_length, publish_node_idem.
  f_equal.
  - destruct k as [|k]; cbn [loop_node].
    + reflexivity.
    + rewrite publish_node_with_timer_length, publish_node_idem,
        with_timer_length_twice. f_equal. lia.
  - do 2 f_equal. apply tick_trace_with_timer_length.
Qed.

(** The stored duration of the current state after the loop. *)
Lemma loop_node_current_state (k : nat) (z : Z) (n : TaskMonitor) (st : State) :
  current_state n = Some st ->
  timer_length st = Some z ->
  current_state (loop_node k z n) = Some (mkState (Some (z - Z.of_nat k))).
Proof.
  intros Hst Hz. destruct k as [|k]; cbn [loop_node].
  - rewrite Hst. destruct st as [tl]. cbn in Hz. subst tl.
    do 2 f_equal. f_equal. lia.
  - by eapply current_state_with_timer_length.
Qed.

(** The durations the loop's messages carry. *)
Lemma tick_trace_remaining (k : nat) (z : Z) (n : TaskMonitor) :
  map TaskUpdate.time_remaining_until_next_task (published (tick_trace k z n)) =
  map (fun i => z - Z.of_nat i) (seq 0 k).
Proof.
  revert z. induction k as [|k IH]; intros z; [done|].
  cbn [tick_trace published omap map seq].
  change (omap _ (tick_trace k (z - 1) n)) with (published (tick_trace k (z - 1) n)).
  cbn. rewrite IH. f_equal; [lia|].
  rewrite <- seq_shift, map_map. apply map_ext. intros i. lia.
Qed.

Lemma timer_expire_run
    (n : TaskMonitor) (curr_idx : nat) (next_state : string) (st' : State) :
  index (state (_task n)) (keys (states (machine (_task n)))) = Some curr_idx ->
  keys (states (machine (_task n))) !! (curr_idx + 1)%nat = Some next_state ->
  to_state_dict (_task n) !! next_state = Some next_state ->
  states_get next_state (states (machine (_task n))) = Some st' ->
  timer_expire n =
  mkOutcome (Ret tt) (expired_node next_state n)
    [ToState next_state;
     Publish (message_of (expired_node next_state n) (remaining_of st'))].
Proof.
  intros Hi Hn Hd Hst. unfold timer_expire, call_to_state, expired_node. run.
  rewrite Hi, Hn, Hd. cbn.
  rewrite publish_task_state_message_run. unfold current_state. cbn.
  rewrite Hst. reflexivity.
Qed.

#[global] Arguments timer_expire : simpl never.
#[global] Arguments timer_loop : simpl never.

Lemma loop_node_fields (k : nat) (z : Z) (n : TaskMonitor) :
  state (_task (loop_node k z n)) = state (_task n) /\
  keys (states (machine (_task (loop_node k z n)))) = keys (states (machine (_task n))) /\
  to_state_dict (_task (loop_node k z n)) = to_state_dict (_task n) /\
  _current_step (loop_node k z n) = _current_step n.
Proof.
  destruct k; cbn; [done|]. by rewrite keys_states_alter.
Qed.

(** The whole thread, for a current state that stores the duration [z] and
    is followed by a registered state. *)
Lemma task_timer_thread_run
    (n : TaskMonitor) (st : State) (z : Z) (curr_idx : nat)
    (next_state : string) (st' : State) :
  current_state n = Some st ->
  timer_length st = Some z ->
  index (state (_task n)) (keys (states (machine (_task n)))) = Some curr_idx ->
  keys (states (machine (_task n))) !! (curr_idx + 1)%nat = Some next_state ->
  to_state_dict (_task n) !! next_state = Some next_state ->
  next_state <> state (_task n) ->
  states_get next_state (states (machine (_task n))) = Some st' ->
  let n' := loop_node (Z.to_nat z) z n in
  task_timer_thread n =
  mkOutcome (Ret tt) (expired_node next_state n')
    (tick_trace (Z.to_nat z) z (publish_node n) ++
     [ToState next_state;
      Publish (message_of (expired_node next_state n') (remaining_of st'))]).
Proof.
  intros Hst Hz Hi Hn Hd Hne Hst' n'. unfold task_timer_thread. run.
  rewrite read_timer_length_run, Hst, Hz. cbn.
  rewrite (timer_loop_run _ n st z Hst Hz). cbn. fold n'.
  destruct (loop_node_fields (Z.to_nat z) z n) as (Es & Ek & Ed & _).
  fold n' in Es, Ek, Ed.
  rewrite (timer_expire_run n' curr_idx next_state st'); [done|..].
  - by rewrite Es, Ek.
  - by rewrite Ek.
  - by rewrite Ed.
  - subst n'. destruct (Z.to_nat z) as [|k]; cbn [loop_node]; [done|].
    unfold with_timer_length. cbn. rewrite states_get_alter.
    by destruct (decide _).
Qed.

(** ** Frame reasoning: what an operation never touches *)

Section Frame.
Context (R : relation TaskMonitor) `{!PreOrder R}.

Lemma preserves_ret {A : Type} (a : A) : preserves R (mret a : M A).
Proof. intros n. reflexivity. Qed.

Lemma preserves_pass : preserves R pass.
Proof. intros n. reflexivity. Qed.

Lemma preserves_raise {A : Type} (e : exn) : preserves R (raise e : M A).
Proof. intros n. reflexivity. Qed.

Lemma preserves_gets {A : Type} (f : TaskMonitor -> A) : preserves R (gets f).
Proof. intros n. reflexivity. Qed.

Lemma preserves_emit (e : effect) : preserves R (emit e).
Proof. intros n. reflexivity. Qed.

Lemma preserves_modify (f : TaskMonitor -> TaskMonitor) :
  (forall n, R n (f n)) -> preserves R (modify f).
Proof. intros H n. apply H. Qed.

Lemma preserves_bind {A B : Type} (m : M A) (f : A -> M B) :
  preserves R m -> (forall a, preserves R (f a)) -> preserves R (m ≫= f).
Proof.
  intros Hm Hf n. unfold mbind, M_bind. specialize (Hm n).
  destruct (m n) as [[a|e] n' tr]; cbn in *; [|done].
  specialize (Hf a n'). destruct (f a n') as [v n'' tr']; cbn in *.
  by etrans.
Qed.

Lemma preserves_try_except {A : Type} (body handler : M A) (e : exn) :
  preserves R body -> preserves R handler ->
  preserves R (try_except body e handler).
Proof.
  intros Hb Hh n. unfold try_except. specialize (Hb n).
  destruct (body n) as [[a|e'] n' tr]; cbn in *; [done|].
  destruct (exn_eqb e' e); cbn; [|done].
  specialize (Hh n'). destruct (handler n') as [v n'' tr']; cbn in *.
  by etrans.
Qed.
End Frame.

(** Breaks an operation down to its assignments; [leaf] settles the
    operations that are called by name. *)
Ltac frame_with leaf :=
  repeat first
    [ leaf
    | apply preserves_pass
    | apply preserves_ret
    | apply preserves_raise
    | apply preserves_gets
    | apply preserves_emit
    | apply preserves_try_except
    | apply preserves_bind; [..|intros ?]
    | apply preserves_modify; [..|intro; solve [eauto]]
    | match goal with
      | |- preserves _ (match ?x with _ => _ end) => destruct x
      end ];
  try exact _.

Ltac frame := frame_with fail.

#[global] Instance same_definition_preorder : PreOrder same_definition.
Proof.
  split; [by intros n | intros a b c H1 H2]. unfold same_definition in *. congruence.
Qed.

#[global] Instance same_durations_preorder : PreOrder same_durations.
Proof.
  split; [by intros n | intros a b c H1 H2]. unfold same_durations in *. congruence.
Qed.

Section FrameOperations.
Context (R : relation TaskMonitor) `{!PreOrder R}.
(** [R] is kept by every assignment of the handlers but the timer's
    decrement, and by what a publication does to the node. *)
Hypothesis R_activity : forall a n, R n (set_current_activity a n).
Hypothesis R_publish : forall n, R n (publish_node n).
Hypothesis R_previous : forall s n, R n (set_previous_step s n).
Hypothesis R_current : forall s n, R n (set_current_step s n).
Hypothesis R_active : forall b n, R n (set_timer_active b n).
Hypothesis R_state : forall s n, R n (set_task (set_state s (_task n)) n).

Lemma preserves_read_timer_length : preserves R read_timer_length.
Proof. unfold read_timer_length. frame. Qed.

Lemma preserves_publish : preserves R publish_task_state_message.
Proof.
  intros n. rewrite publish_task_state_message_run.
  destruct (current_state n); apply R_publish.
Qed.

Lemma preserves_call_trigger (trg : string) : preserves R (call_trigger trg).
Proof.
  intros n. rewrite call_trigger_run.
  destruct (find_transition _ _ _) as [tr|]; [|reflexivity].
  destruct (states_get _ _); [apply R_state | reflexivity].
Qed.

Lemma preserves_call_to_state (s : string) : preserves R (call_to_state s).
Proof. intros n. apply R_state. Qed.

Lemma preserves_listener_callback (label_vec : list string) :
  preserves R (listener_callback label_vec).
Proof.
  unfold listener_callback.
  frame_with ltac:(first [ apply preserves_publish
                         | apply preserves_call_trigger
                         | apply preserves_read_timer_length ]).
Qed.

Lemma preserves_timer_expire : preserves R timer_expire.
Proof.
  unfold timer_expire.
  frame_with ltac:(first [ apply preserves_publish
                         | apply preserves_call_to_state ]).
Qed.

(** With the decrement too, the whole thread. *)
Hypothesis R_decrement : preserves R decrement_timer_length.

Lemma preserves_timer_loop (k : nat) : preserves R (timer_loop k).
Proof.
  induction k as [|k IH]; cbn [timer_loop].
  - frame.
  - frame_with ltac:(first [ apply preserves_publish
                           | apply R_decrement
                           | apply IH ]).
Qed.

Lemma preserves_task_timer_thread : preserves R task_timer_thread.
Proof.
  unfold task_timer_thread.
  frame_with ltac:(first [ apply preserves_read_timer_length
                         | apply preserves_timer_loop
                         | apply preserves_timer_expire ]).
Qed.
End FrameOperations.

Lemma same_definition_decrement : preserves same_definition decrement_timer_length.
Proof.
  intros n. unfold decrement_timer_length. run.
  rewrite read_timer_length_run.
  destruct (current_state n) as [[[z|]]|]; cbn; try reflexivity.
  unfold same_definition, definition_of. cbn. by rewrite keys_states_alter.
Qed.

(** ** The session of the source's task, step by step *)

Example session_steps :
  map (fun n => (_current_step n, _previous_step n, _timer_active n))
      [monitor0; placing; steeping; enjoying] =
  [ ("open_bottle_and_pour_water_into_cup", None, false);
    ("place_tea_bag_into_cup", Some "open_bottle_and_pour_water_into_cup", false);
    ("steep_for_20_seconds", Some "place_tea_bag_into_cup", true);
    ("enjoy", Some "steep_for_20_seconds", false) ].
Proof. vm_compute. reflexivity. Qed.

(** ** The activity handler *)

(** C1. While [_timer_active] is set, [listener_callback] leaves
    [_current_step] and the machine's state as they are and attempts no
    transition, whatever the labels of the observation are, matched or not;
    still, some observation changes [_current_activity]. *)
Theorem listener_callback_timer_active_keeps_step
    (n : TaskMonitor) (label_vec : list string) :
  _timer_active n = true ->
  let o := listener_callback label_vec n in
  _current_step (node o) = _current_step n /\
  state (_task (node o)) = state (_task n) /\
  no_transition_attempt (trace o) /\
  (exists label_vec',
     _current_activity (after (listener_callback label_vec') n) <> _current_activity n).
Proof.
  intros Hact o. subst o.
  assert (Hcases : forall l,
    let o := listener_callback l n in
    _current_step (node o) = _current_step n /\
    state (_task (node o)) = state (_task n) /\
    no_transition_attempt (trace o) /\
    (forall a, l = [a] -> _current_activity (node o) = Some a)).
  { intros l. destruct (matched_activity n l) as [a|] eqn:Hm.
    - rewrite (listener_callback_timer_active n l a Hact Hm). cbn.
      repeat split; [constructor|].
      intros b ->. unfold matched_activity in Hm. cbn in Hm.
      destruct (bool_decide _); congruence.
    - destruct l as [|b l].
      + rewrite listener_callback_empty. cbn.
        repeat split; [constructor | discriminate].
      + rewrite (listener_callback_unmatched n b l Hm). cbn.
        destruct (current_state n); cbn.
        * repeat split; [by repeat constructor | congruence].
        * repeat split; [constructor | congruence]. }
  destruct (Hcases label_vec) as (H1 & H2 & H3 & _).
  repeat split; [done..|].
  set (l := if decide (_current_activity n = Some "a") then "b" else "a").
  exists [l]. unfold after.
  destruct (Hcases [l]) as (_ & _ & _ & H4). rewrite (H4 l eq_refl).
  subst l. destruct (decide (_current_activity n = Some "a")) as [E|E].
  - rewrite E. discriminate.
  - congruence.
Qed.

Lemma listener_callback_timer_active_keeps_step_witness :
  _timer_active steeping = true /\
  let o := listener_callback ["making tea"] steeping in
  _current_step (node o) = _current_step steeping /\
  state (_task (node o)) = state (_task steeping) /\
  no_transition_attempt (trace o) /\
  (exists label_vec',
     _current_activity (after (listener_callback label_vec') steeping)
     <> _current_activity steeping).
Proof.
  split; [vm_compute; reflexivity|].
  apply (listener_callback_timer_active_keeps_step steeping ["making tea"]).
  vm_compute. reflexivity.
Defined.



(** C7. A non-empty observation none of whose labels is in the dictionary:
    the handler returns, [_current_step] and the machine's state are as
    before, [_current_activity] is the first label, exactly one message is
    published, which shows that label and the unchanged step, and no
    transition is attempted. *)
Theorem listener_callback_unmatched_records_first
    (n : TaskMonitor) (a : string) (label_vec : list string) (st : State) :
  Forall (fun l => _activity_action_dict n !! l = None) (a :: label_vec) ->
  current_state n = Some st ->
  let o := listener_callback (a :: label_vec) n in
  value o = Ret tt /\
  _current_step (node o) = _current_step n /\
  state (_task (node o)) = state (_task n) /\
  _current_activity (node o) = Some a /\
  no_transition_attempt (trace o) /\
  exists m, trace o = [Publish m] /\
            TaskUpdate.current_activity m = a /\
            TaskUpdate.current_step m = replace "_"%char " "%char (_current_step n).
Proof.
  intros Hnone Hst o. subst o.
  rewrite (listener_callback_unmatched n a label_vec (matched_activity_none _ _ Hnone)).
  cbn. rewrite Hst. cbn.
  repeat split; [by repeat constructor|].
  eexists. repeat split.
Qed.

Lemma listener_callback_unmatched_records_first_witness :
  Forall (fun l => _activity_action_dict monitor0 !! l = None)
         ["unknown_label"; "stirring"] /\
  current_state monitor0 = Some (mkState None) /\
  let o := listener_callback ["unknown_label"; "stirring"] monitor0 in
  value o = Ret tt /\
  _current_step (node o) = _current_step monitor0 /\
  state (_task (node o)) = state (_task monitor0) /\
  _current_activity (node o) = Some "unknown_label" /\
  no_transition_attempt (trace o) /\
  exists m, trace o = [Publish m] /\
            TaskUpdate.current_activity m = "unknown_label" /\
            TaskUpdate.current_step m =
              replace "_"%char " "%char (_current_step monitor0).
Proof.
  assert (H : Forall (fun l => _activity_action_dict monitor0 !! l = None)
                     ["unknown_label"; "stirring"])
    by (repeat constructor; vm_compute; reflexivity).
  split; [exact H|].
  split; [vm_compute; reflexivity|].
  apply (listener_callback_unmatched_records_first monitor0 "unknown_label"
           ["stirring"] (mkState None) H).
  vm_compute. reflexivity.
Defined.

(** C8, as the code has it. An observation without labels makes the handler
    raise [IndexError]: no label matches, and [label_vec[0]] is read
    unguarded. The node is left as it was and nothing is published. *)
Theorem listener_callback_empty_raises (n : TaskMonitor) :
  listener_callback [] n = mkOutcome (Raise IndexError) n [].
Proof. apply listener_callback_empty. Qed.

Lemma published_timer_check_trace (st : State) :
  published (timer_check_trace st) = [].
Proof. unfold timer_check_trace. by destruct (bool_decide _). Qed.

(** C4. A matched label whose trigger has no transition out of the current
    state, so that calling it raises [MachineError]: the handler catches the
    exception and returns, [_current_step], [_previous_step] and the
    machine's state are as before, and the one message that is published
    after the call shows the unchanged steps. *)
Theorem listener_callback_swallows_machine_error
    (n : TaskMonitor) (label_vec : list string) (a trg : string) (st : State) :
  _timer_active n = false ->
  matched_activity n label_vec = Some a ->
  _activity_action_dict n !! a = Some trg ->
  find_transition trg (state (_task n)) (transitions (_task n)) = None ->
  current_state n = Some st ->
  let o := listener_callback label_vec n in
  value o = Ret tt /\
  _current_step (node o) = _current_step n /\
  _previous_step (node o) = _previous_step n /\
  state (_task (node o)) = state (_task n) /\
  exists m rest,
    trace o = Trigger trg :: Publish m :: rest /\
    published (trace o) = [m] /\
    TaskUpdate.current_step m = replace "_"%char " "%char (_current_step n) /\
    TaskUpdate.previous_step m = default "N/A" (_previous_step n).
Proof.
  intros Hact Hm Hd Hf Hst o. subst o.
  rewrite (listener_callback_no_transition n label_vec a trg st Hact Hm Hd Hf Hst).
  cbn. unfold timer_check_node.
  repeat split; try (by destruct (bool_decide _)).
  eexists _, _. split; [reflexivity|].
  change (published (_ :: Publish ?m :: ?r)) with (m :: published r).
  rewrite published_timer_check_trace. repeat split.
Qed.

Lemma listener_callback_swallows_machine_error_witness :
  _timer_active monitor0 = false /\
  matched_activity monitor0 ["making tea"] = Some "making tea" /\
  _activity_action_dict monitor0 !! "making tea" = Some "make_tea" /\
  find_transition "make_tea" (state (_task monitor0)) (transitions (_task monitor0))
    = None /\
  current_state monitor0 = Some (mkState None) /\
  let o := listener_callback ["making tea"] monitor0 in
  value o = Ret tt /\
  _current_step (node o) = _current_step monitor0 /\
  _previous_step (node o) = _previous_step monitor0 /\
  state (_task (node o)) = state (_task monitor0) /\
  exists m rest,
    trace o = Trigger "make_tea" :: Publish m :: rest /\
    published (trace o) = [m] /\
    TaskUpdate.current_step m = replace "_"%char " "%char (_current_step monitor0) /\
    TaskUpdate.previous_step m = default "N/A" (_previous_step monitor0).
Proof.
  repeat (split; [vm_compute; reflexivity|]).
  apply (listener_callback_swallows_machine_error monitor0 ["making tea"]
           "making tea" "make_tea" (mkState None));
    vm_compute; reflexivity.
Defined.

(** ** The timer thread: expiry *)

(** The loop's trace, round by round: round [i] publishes the duration
    [z - i], then sleeps one second. *)
Lemma tick_trace_rounds_from (k s : nat) (z : Z) (n : TaskMonitor) :
  tick_trace k (z - Z.of_nat s) n =
  flat_map (fun i => [Publish (message_of n (z - Z.of_nat i)); Sleep 1]) (seq s k).
Proof.
  revert s. induction k as [|k IH]; intros s; [done|].
  cbn [tick_trace seq flat_map app]. do 2 f_equal.
  rewrite <- IH. f_equal. lia.
Qed.

Lemma tick_trace_rounds (k : nat) (z : Z) (n : TaskMonitor) :
  tick_trace k z n =
  flat_map (fun i => [Publish (message_of n (z - Z.of_nat i)); Sleep 1]) (seq 0 k).
Proof.
  rewrite <- tick_trace_rounds_from. f_equal. lia.
Qed.

(** Settles a decidable closed proposition by evaluation. *)
Ltac by_evaluation :=
  match goal with
  | |- ?P => apply (bool_decide_unpack P); vm_compute; reflexivity
  end.

Lemma task_built_Task_init : task_built Task_init.
Proof. split; by_evaluation. Qed.

Lemma task_built_steeping : task_built (_task steeping).
Proof. split; by_evaluation. Qed.

(** What the expiry needs of the step after the current one. *)
Lemma task_built_next_state (t : Task) (i : nat) (next_state : string) :
  task_built t ->
  steps t !! i = Some (state t) ->
  steps t !! S i = Some next_state ->
  index (state t) (keys (states (machine t))) = Some i /\
  keys (states (machine t)) !! (i + 1)%nat = Some next_state /\
  to_state_dict t !! next_state = Some next_state /\
  next_state <> state t /\
  exists st', states_get next_state (states (machine t)) = Some st'.
Proof.
  intros [Hk Hnd Hto] Hi Hn. rewrite Hk. repeat split.
  - by apply index_lookup.
  - by rewrite Nat.add_1_r.
  - rewrite Forall_forall in Hto. apply Hto. by eapply list_elem_of_lookup_2.
  - intros ->. pose proof (NoDup_lookup _ _ _ _ Hnd Hi Hn). lia.
  - apply states_get_elem_of. rewrite Hk. by eapply list_elem_of_lookup_2.
Qed.

(** C2. The timed step is not the last of the task's steps: the timer
    thread returns, and when it is over [_current_step] and the machine's
    state are the step that follows the timed one in [steps], whatever the
    transitions of the task are; [_previous_step] is the timed step,
    [_timer_active] is unset, and the last thing the thread does is to
    publish a message showing the new step. *)
Theorem task_timer_thread_advances_in_sequence
    (n : TaskMonitor) (st : State) (d : Z) (i : nat) (next_state : string) :
  task_built (_task n) ->
  steps (_task n) !! i = Some (state (_task n)) ->
  steps (_task n) !! S i = Some next_state ->
  current_state n = Some st ->
  timer_length st = Some d ->
  _current_step n = state (_task n) ->
  let o := task_timer_thread n in
  value o = Ret tt /\
  _current_step (node o) = next_state /\
  state (_task (node o)) = next_state /\
  _previous_step (node o) = Some (state (_task n)) /\
  _timer_active (node o) = false /\
  exists ticks m,
    trace o = (ticks ++ [ToState next_state; Publish m])%list /\
    no_transition_attempt ticks /\
    TaskUpdate.current_step m = replace "_"%char " "%char next_state /\
    TaskUpdate.previous_step m = state (_task n).
Proof.
  intros Hb Hi Hn Hst Hd Hcur o. subst o.
  destruct (task_built_next_state _ i next_state Hb Hi Hn)
    as (Hidx & Hnext & Hto & Hne & st' & Hst').
  rewrite (task_timer_thread_run n st d i next_state st'); try done.
  destruct (loop_node_fields (Z.to_nat d) d n) as (_ & _ & _ & Ec).
  cbn. rewrite Ec, Hcur. repeat split.
  eexists _, _. split; [reflexivity|].
  split; [|split; [reflexivity | cbn; by rewrite Ec, Hcur]].
  rewrite tick_trace_rounds. clear. generalize 0%nat.
  induction (Z.to_nat d) as [|k IH]; intros s; cbn; [constructor|].
  repeat constructor. apply IH.
Qed.

Lemma task_timer_thread_advances_in_sequence_witness :
  task_built (_task steeping) /\
  steps (_task steeping) !! 2%nat = Some (state (_task steeping)) /\
  steps (_task steeping) !! 3%nat = Some "enjoy" /\
  current_state steeping = Some (mkState (Some 20)) /\
  timer_length (mkState (Some 20)) = Some 20 /\
  _current_step steeping = state (_task steeping) /\
  let o := task_timer_thread steeping in
  value o = Ret tt /\
  _current_step (node o) = "enjoy" /\
  state (_task (node o)) = "enjoy" /\
  _previous_step (node o) = Some (state (_task steeping)) /\
  _timer_active (node o) = false /\
  exists ticks m,
    trace o = (ticks ++ [ToState "enjoy"; Publish m])%list /\
    no_transition_attempt ticks /\
    TaskUpdate.current_step m = replace "_"%char " "%char "enjoy" /\
    TaskUpdate.previous_step m = state (_task steeping).
Proof.
  assert (Hb : task_built (_task steeping)) by exact task_built_steeping.
  split; [exact Hb|].
  repeat (split; [vm_compute; reflexivity|]).
  apply (task_timer_thread_advances_in_sequence steeping (mkState (Some 20)) 20
           2 "enjoy" Hb);
    vm_compute; reflexivity.
Defined.

(** ** The timer thread: the countdown *)

(** C3, as stated, fails: the twenty messages of the loop for
    [steep_for_20_seconds] carry 20, 19, …, 1 and not 19, 18, …, 0. *)
Lemma tick_remaining_not_as_described :
  tick_remaining 20 steeping <> described_remaining 20.
Proof. vm_compute. discriminate. Qed.

(** C3, amended. A timer thread started on a step that stores the positive
    duration [d]: round after round, [d] times, it publishes the stored
    duration, decrements it and sleeps one second, so that the messages of
    the loop carry [d, d-1, …, 1]; then it moves the machine to the next
    step once and publishes once more. *)
Theorem task_timer_thread_counts_down
    (n : TaskMonitor) (st : State) (d : Z) (i : nat) (next_state : string) :
  task_built (_task n) ->
  steps (_task n) !! i = Some (state (_task n)) ->
  steps (_task n) !! S i = Some next_state ->
  current_state n = Some st ->
  timer_length st = Some d ->
  0 < d ->
  let rounds := seq 0 (Z.to_nat d) in
  tick_remaining d n = map (fun i => d - Z.of_nat i) rounds /\
  head (tick_remaining d n) = Some d /\
  last (tick_remaining d n) = Some 1 /\
  exists m,
    trace (task_timer_thread n) =
    (flat_map (fun i => [Publish (message_of (publish_node n) (d - Z.of_nat i));
                         Sleep 1]) rounds
     ++ [ToState next_state; Publish m])%list.
Proof.
  intros Hb Hi Hn Hst Hd Hpos rounds.
  destruct (task_built_next_state _ i next_state Hb Hi Hn)
    as (Hidx & Hnext & Hto & Hne & st' & Hst').
  assert (Hr : tick_remaining d n = map (fun i => d - Z.of_nat i) rounds).
  { unfold tick_remaining.
    rewrite (timer_loop_run _ n st d Hst Hd). cbn [trace].
    apply tick_trace_remaining. }
  split; [exact Hr|]. rewrite Hr. subst rounds.
  destruct (Z.to_nat d) as [|k] eqn:Hk; [lia|].
  split; [cbn; f_equal; lia|]. split.
  - rewrite seq_S, map_app. cbn [map]. rewrite last_snoc. f_equal. lia.
  - rewrite (task_timer_thread_run n st d i next_state st'); try done.
    cbn [trace]. rewrite tick_trace_rounds, Hk. by eexists.
Qed.

Lemma task_timer_thread_counts_down_witness :
  task_built (_task steeping) /\
  steps (_task steeping) !! 2%nat = Some (state (_task steeping)) /\
  steps (_task steeping) !! 3%nat = Some "enjoy" /\
  current_state steeping = Some (mkState (Some 20)) /\
  timer_length (mkState (Some 20)) = Some 20 /\
  0 < 20 /\
  let rounds := seq 0 (Z.to_nat 20) in
  tick_remaining 20 steeping = map (fun i => 20 - Z.of_nat i) rounds /\
  head (tick_remaining 20 steeping) = Some 20 /\
  last (tick_remaining 20 steeping) = Some 1 /\
  exists m,
    trace (task_timer_thread steeping) =
    (flat_map (fun i => [Publish (message_of (publish_node steeping) (20 - Z.of_nat i));
                         Sleep 1]) rounds
     ++ [ToState "enjoy"; Publish m])%list.
Proof.
  assert (Hb : task_built (_task steeping)) by exact task_built_steeping.
  split; [exact Hb|].
  repeat (split; [vm_compute; reflexivity|]).
  apply (task_timer_thread_counts_down steeping (mkState (Some 20)) 20
           2 "enjoy" Hb);
    vm_compute; reflexivity.
Defined.

(** ** What stays of the task definition *)

(** Settles the side conditions of the frame lemmas for a relation that
    every plain assignment keeps by computation. *)
Ltac kept_by_assignments :=
  first [ exact _ | intros; reflexivity ].

Lemma same_definition_perform (op : operation) :
  preserves same_definition (perform op).
Proof.
  destruct op; cbn [perform].
  - apply preserves_listener_callback; kept_by_assignments.
  - apply preserves_publish; kept_by_assignments.
  - apply preserves_task_timer_thread;
      first [ exact same_definition_decrement | kept_by_assignments ].
Qed.

Lemma same_durations_listener_callback (label_vec : list string) :
  preserves same_durations (listener_callback label_vec).
Proof. apply preserves_listener_callback; kept_by_assignments. Qed.

Lemma same_durations_publish :
  preserves same_durations publish_task_state_message.
Proof. apply preserves_publish; kept_by_assignments. Qed.

Lemma same_durations_timer_expire : preserves same_durations timer_expire.
Proof. apply preserves_timer_expire; kept_by_assignments. Qed.

(** C5, as stated, fails: the timer thread leaves the duration stored for
    [steep_for_20_seconds] at 0, where the task was given 20. *)
Lemma timer_thread_changes_stored_duration :
  states_get "steep_for_20_seconds" (states (machine (_task steeping)))
    = Some (mkState (Some 20)) /\
  states_get "steep_for_20_seconds"
             (states (machine (_task (after task_timer_thread steeping))))
    = Some (mkState (Some 0)) /\
  ~ same_durations steeping (after task_timer_thread steeping).
Proof.
  split; [vm_compute; reflexivity|]. split; [vm_compute; reflexivity|].
  unfold same_durations. vm_compute. discriminate.
Qed.

(** C5, amended. No operation of the node, the timer thread included,
    changes the task's name, description, items, steps, transitions, the
    names and order of the machine's states, the [to_<state>] table or the
    activity dictionary; the activity handler and the publication leave
    the stored durations as they are too. *)
Theorem definition_kept_by_operations :
  (forall (op : operation) (n : TaskMonitor),
     definition_of (after (perform op) n) = definition_of n) /\
  (forall (label_vec : list string) (n : TaskMonitor),
     machine (_task (after (listener_callback label_vec) n)) = machine (_task n)) /\
  (forall n : TaskMonitor,
     machine (_task (after publish_task_state_message n)) = machine (_task n)).
Proof.
  split; [|split].
  - intros op n. apply (same_definition_perform op n).
  - intros label_vec n. apply (same_durations_listener_callback label_vec n).
  - intros n. apply (same_durations_publish n).
Qed.

(** ** The next activity *)

#[global] Instance keeps_next_activity_computed_preorder :
  PreOrder keeps_next_activity_computed.
Proof.
  split.
  - intros n H. exact H.
  - intros a b c H1 H2 H. apply H2, H1, H.
Qed.

(** X10. The current state has an outgoing transition: the publication
    stores and reports the trigger of the first declared one, whatever
    was held before. *)
Lemma publish_next_activity_first_declared
    (n : TaskMonitor) (st : State) (tr : Transition) :
  current_state n = Some st ->
  first_outgoing n = Some tr ->
  let o := publish_task_state_message n in
  _next_activity (node o) = Some (trigger tr) /\
  (exists m, trace o = [Publish m] /\ TaskUpdate.next_activity m = Some (trigger tr)) /\
  source tr = state (_task n) /\
  exists before later,
    transitions (_task n) = (before ++ tr :: later)%list /\
    Forall (fun tr' => source tr' <> state (_task n)) before.
Proof.
  intros Hst Hf o. subst o. rewrite publish_task_state_message_run, Hst.
  unfold first_outgoing in Hf. cbn.
  unfold peek_next_expected_trigger. rewrite Hf.
  split; [done|]. split.
  { eexists. split; [reflexivity|]. cbn.
    unfold peek_next_expected_trigger. by rewrite Hf. }
  clear Hst. induction (transitions (_task n)) as [|tr0 l IH]; [done|].
  cbn in Hf. destruct (bool_decide (source tr0 = state (_task n))) eqn:E.
  - injection Hf as ->. apply bool_decide_eq_true in E.
    split; [done|]. by exists [], l.
  - apply bool_decide_eq_false in E.
    destruct (IH Hf) as (Hs & before & later & -> & Hb).
    split; [done|]. exists (tr0 :: before), later. split; [done|].
    by constructor.
Qed.

(** Whatever the node does, the held value stays one that was computed for
    a state with an outgoing transition. *)
Lemma next_activity_computed_perform (op : operation) (n : TaskMonitor) :
  next_activity_computed n -> next_activity_computed (after (perform op) n).
Proof.
  assert (Hpub : forall n, keeps_next_activity_computed n (publish_node n)).
  { intros m Hm. unfold next_activity_computed, publish_node,
      peek_next_expected_trigger in *. cbn.
    destruct (find _ (transitions (_task m))) as [tr|] eqn:E; [|done].
    by exists (state (_task m)), tr. }
  assert (Hdec : preserves keeps_next_activity_computed decrement_timer_length).
  { intros m. unfold decrement_timer_length. run.
    rewrite read_timer_length_run.
    destruct (current_state m) as [[[z|]]|]; cbn; by intros H. }
  cut (preserves keeps_next_activity_computed (perform op)); [intros H; apply H|].
  destruct op; cbn [perform].
  - apply preserves_listener_callback; first [ exact _ | done | by intros ? ? ? ].
  - apply preserves_publish; first [ exact _ | done ].
  - apply preserves_task_timer_thread; first [ exact _ | done | by intros ? ? ? ].
Qed.

(** In the session of the source's task, every message published from
    [steep_for_20_seconds] on, a state without outgoing transition, still
    names [make_tea]. *)
Example next_activity_held_while_steeping :
  Forall (fun m => TaskUpdate.next_activity m = Some "make_tea")
         (published (trace (task_timer_thread steeping))).
Proof. by_evaluation. Qed.

(** ** A timed step that is entered again *)

(** The machine's states when the timer thread is over are those the loop
    left: the expiry changes none of them. *)
Lemma task_timer_thread_machine (n : TaskMonitor) (st : State) (d : Z) :
  current_state n = Some st ->
  timer_length st = Some d ->
  machine (_task (after task_timer_thread n)) =
  machine (_task (loop_node (Z.to_nat d) d n)).
Proof.
  intros Hst Hd. unfold after, task_timer_thread. run.
  rewrite read_timer_length_run, Hst, Hd. cbn.
  rewrite (timer_loop_run _ n st d Hst Hd). cbn.
  pose proof (same_durations_timer_expire (loop_node (Z.to_nat d) d n)) as H.
  unfold same_durations in H.
  by destruct (timer_expire (loop_node (Z.to_nat d) d n)).
Qed.

(** C9. A timer thread has run on the step [s], which stored the positive
    duration [d]: the duration stored for [s] is 0 from then on. When the
    handler later takes a transition back into [s], with the machine's
    states as the thread left them, the message it publishes carries 0 as
    the remaining time, no timer thread is started and [_timer_active]
    stays unset. *)
Theorem timed_step_reentered_without_timer
    (n n2 : TaskMonitor) (st : State) (d : Z)
    (label_vec : list string) (a trg : string) (tr : Transition) :
  current_state n = Some st ->
  timer_length st = Some d ->
  0 < d ->
  machine (_task n2) = machine (_task (after task_timer_thread n)) ->
  _timer_active n2 = false ->
  matched_activity n2 label_vec = Some a ->
  _activity_action_dict n2 !! a = Some trg ->
  find_transition trg (state (_task n2)) (transitions (_task n2)) = Some tr ->
  dest tr = state (_task n) ->
  let s := state (_task n) in
  let o := listener_callback label_vec n2 in
  states_get s (states (machine (_task (after task_timer_thread n))))
    = Some (mkState (Some 0)) /\
  value o = Ret tt /\
  state (_task (node o)) = s /\
  _current_step (node o) = s /\
  _timer_active (node o) = false /\
  (ThreadStart ∉ trace o) /\
  exists m, published (trace o) = [m] /\
            TaskUpdate.time_remaining_until_next_task m = 0.
Proof.
  intros Hst Hd Hpos Hmach Hact Hm Hdict Hf Hdest s o.
  assert (H0 : states_get s (states (machine (_task (after task_timer_thread n))))
               = Some (mkState (Some 0))).
  { rewrite (task_timer_thread_machine n st d Hst Hd).
    pose proof (loop_node_current_state (Z.to_nat d) d n st Hst Hd) as H.
    unfold current_state in H.
    destruct (loop_node_fields (Z.to_nat d) d n) as (Es & _).
    rewrite Es in H. subst s. rewrite H. do 3 f_equal. lia. }
  split; [exact H0|]. subst o s.
  rewrite <- Hmach, <- Hdest in H0.
  rewrite (listener_callback_transition n2 label_vec a trg tr _ Hact Hm Hdict Hf H0).
  cbn. unfold timer_check_node, timer_check_trace, remaining_of. cbn.
  repeat split; try done.
  - intros H. inversion H as [|? ? ? H']; subst. inversion H' as [|? ? ? H'']; subst.
    inversion H''.
  - by eexists.
Qed.

Lemma timed_step_reentered_without_timer_witness :
  current_state resteeping = Some (mkState (Some 3)) /\
  timer_length (mkState (Some 3)) = Some 3 /\
  0 < 3 /\
  machine (_task tasting) = machine (_task (after task_timer_thread resteeping)) /\
  _timer_active tasting = false /\
  matched_activity tasting ["putting bag back"] = Some "putting bag back" /\
  _activity_action_dict tasting !! "putting bag back" = Some "steep_again" /\
  find_transition "steep_again" (state (_task tasting)) (transitions (_task tasting))
    = Some (mkTransition "steep_again" "taste" "steep") /\
  dest (mkTransition "steep_again" "taste" "steep") = state (_task resteeping) /\
  let s := state (_task resteeping) in
  let o := listener_callback ["putting bag back"] tasting in
  states_get s (states (machine (_task (after task_timer_thread resteeping))))
    = Some (mkState (Some 0)) /\
  value o = Ret tt /\
  state (_task (node o)) = s /\
  _current_step (node o) = s /\
  _timer_active (node o) = false /\
  (ThreadStart ∉ trace o) /\
  exists m, published (trace o) = [m] /\
            TaskUpdate.time_remaining_until_next_task m = 0.
Proof.
  repeat (split; [vm_compute; reflexivity|]).
  apply (timed_step_reentered_without_timer resteeping tasting (mkState (Some 3)) 3
           ["putting bag back"] "putting bag back" "steep_again"
           (mkTransition "steep_again" "taste" "steep"));
    vm_compute; reflexivity.
Defined.

(** ** The step the node tracks is the machine's state *)

(** Case analysis along a run. *)
Ltac run_cases :=
  repeat
    (first
       [ rewrite call_trigger_run
       | rewrite publish_task_state_message_run
       | rewrite read_timer_length_run
       | match goal with
         | |- context [match ?x with _ => _ end] =>
             lazymatch x with
             | context [match _ with _ => _ end] => fail
             | _ => destruct x eqn:?
             end
         end ];
     cbn in *).

Lemma listener_callback_consistent (label_vec : list string) (n : TaskMonitor) :
  consistent n -> consistent (after (listener_callback label_vec) n).
Proof.
  unfold consistent, after, listener_callback. intros H. run.
  run_cases; unfold publish_node; cbn; congruence.
Qed.

#[global] Instance same_step_preorder : PreOrder same_step.
Proof.
  split; [by intros n | intros a b c [H1 H2] [H3 H4]].
  unfold same_step. split; congruence.
Qed.

Lemma same_step_timer_loop (k : nat) : preserves same_step (timer_loop k).
Proof.
  apply preserves_timer_loop; try exact _.
  - by intros n.
  - intros n. unfold decrement_timer_length. run.
    rewrite read_timer_length_run.
    by destruct (current_state n) as [[[z|]]|].
Qed.

Lemma timer_expire_consistent (n : TaskMonitor) :
  consistent n -> consistent (after timer_expire n).
Proof.
  unfold consistent, after, timer_expire, call_to_state. intros H. run.
  run_cases; unfold publish_node; cbn; congruence.
Qed.

Lemma task_timer_thread_consistent (n : TaskMonitor) :
  consistent n -> consistent (after task_timer_thread n).
Proof.
  intros H. unfold after, task_timer_thread. run.
  rewrite read_timer_length_run.
  destruct (current_state n) as [[[z|]]|]; cbn; try done.
  destruct (same_step_timer_loop (Z.to_nat z) n) as [Hc Hs].
  destruct (timer_loop (Z.to_nat z) n) as [[[]|e] n' tr]; cbn in *.
  - assert (Hn' : consistent n') by (unfold consistent in *; congruence).
    apply timer_expire_consistent in Hn'. unfold after in Hn'.
    by destruct (timer_expire n').
  - unfold consistent in *. congruence.
Qed.

(** Every node of a session that starts with the constructor tracks the
    machine's state. *)
Lemma consistent_perform (op : operation) (n : TaskMonitor) :
  consistent n -> consistent (after (perform op) n).
Proof.
  destruct op; cbn [perform].
  - apply listener_callback_consistent.
  - intros H. unfold after. rewrite publish_task_state_message_run.
    by destruct (current_state n).
  - apply task_timer_thread_consistent.
Qed.

Lemma consistent_TaskMonitor_fields (t : Task) (d : gmap string string) :
  consistent (TaskMonitor_fields t d).
Proof. reflexivity. Qed.

(** ** Well-formed nodes *)

Lemma index_Some_lookup (x : string) (l : list string) (i : nat) :
  index x l = Some i -> l !! i = Some x.
Proof.
  revert i. induction l as [|y l IH]; intros i; cbn; [done|].
  destruct (decide (y = x)) as [->|Hne].
  - by intros [= <-].
  - destruct (index x l) as [j|]; cbn; [|done].
    intros [= <-]. by apply IH.
Qed.

Lemma index_elem_of (x : string) (l : list string) :
  x ∈ l -> is_Some (index x l).
Proof.
  induction l as [|y l IH]; cbn; [by intros ?%elem_of_nil|].
  destruct (decide (y = x)) as [->|Hne]; [by eexists|].
  intros [?|H]%elem_of_cons; [congruence|].
  destruct (IH H) as [j ->]. by eexists.
Qed.

(** The timed step is the last registered state: the expiry raises when it
    looks up the state after it. *)
Lemma timer_expire_last_run (n : TaskMonitor) (curr_idx : nat) :
  index (state (_task n)) (keys (states (machine (_task n)))) = Some curr_idx ->
  keys (states (machine (_task n))) !! (curr_idx + 1)%nat = None ->
  timer_expire n = mkOutcome (Raise IndexError) (set_timer_active false n) [].
Proof.
  intros Hi Hn. unfold timer_expire. run. by rewrite Hi, Hn.
Qed.

Lemma well_formed_same (n n' : TaskMonitor) :
  definition_of n' = definition_of n ->
  is_Some (current_state n') ->
  consistent n' ->
  well_formed n -> well_formed n'.
Proof.
  unfold definition_of. intros Hd Hr Hc [[Hk Hnd Hto] Hds _ _].
  injection Hd as ? ? ? Hs Ht Hk' Hto' ?.
  split; [split|..]; try done.
  - by rewrite Hk', Hs.
  - by rewrite Hs.
  - by rewrite Hs, Hto'.
  - by rewrite Hs, Ht.
Qed.

(** In a well-formed node, the label the handler settles on has a trigger. *)
Lemma matched_activity_trigger (n : TaskMonitor) (label_vec : list string) (a : string) :
  matched_activity n label_vec = Some a ->
  exists trg, _activity_action_dict n !! a = Some trg.
Proof.
  unfold matched_activity. intros [_ H]%find_some.
  by apply bool_decide_eq_true in H as [trg ?]; exists trg.
Qed.

Lemma find_transition_elem_of (trg st : string) (trs : list Transition) (tr : Transition) :
  find_transition trg st trs = Some tr ->
  tr ∈ trs /\ trigger tr = trg /\ source tr = st.
Proof.
  unfold find_transition. intros [Hin H]%find_some.
  apply andb_true_iff in H as [H1%bool_decide_eq_true H2%bool_decide_eq_true].
  split; [by apply list_elem_of_In | done].
Qed.

(** In a well-formed node every transition leads to a registered state. *)
Lemma well_formed_dest_registered (n : TaskMonitor) (trg : string) (tr : Transition) :
  well_formed n ->
  find_transition trg (state (_task n)) (transitions (_task n)) = Some tr ->
  is_Some (states_get (dest tr) (states (machine (_task n)))).
Proof.
  intros [[Hk _ _] Hds _ _] (Hin & _ & _)%find_transition_elem_of.
  apply states_get_elem_of. rewrite Hk.
  rewrite Forall_forall in Hds. by apply Hds.
Qed.

(** The outcome of the handler on a well-formed node, by cases. *)
Lemma listener_callback_well_formed_cases (n : TaskMonitor) (label_vec : list string) :
  well_formed n ->
  let o := listener_callback label_vec n in
  (label_vec = [] /\ o = mkOutcome (Raise IndexError) n []) \/
  (value o = Ret tt /\
   definition_of (node o) = definition_of n /\
   is_Some (current_state (node o)) /\
   consistent (node o)).
Proof.
  intros Hwf o. subst o.
  pose proof (same_definition_perform (Listener label_vec) n) as Hdef.
  pose proof (listener_callback_consistent label_vec n (wf_consistent _ Hwf)) as Hc.
  cbn [perform] in Hdef. unfold same_definition in Hdef. unfold after in Hc.
  destruct (wf_registered _ Hwf) as [st Hst].
  destruct (matched_activity n label_vec) as [a|] eqn:Hm.
  - right. split; [|split; [exact Hdef | split; [|exact Hc]]].
    + destruct (_timer_active n) eqn:Hact.
      { by rewrite (listener_callback_timer_active n label_vec a Hact Hm). }
      destruct (matched_activity_trigger _ _ _ Hm) as [trg Hd].
      destruct (find_transition trg (state (_task n)) (transitions (_task n)))
        as [tr|] eqn:Hf.
      * destruct (well_formed_dest_registered n trg tr Hwf Hf) as [st' Hst'].
        by rewrite (listener_callback_transition n label_vec a trg tr st').
      * by rewrite (listener_callback_no_transition n label_vec a trg st).
    + destruct (_timer_active n) eqn:Hact.
      { rewrite (listener_callback_timer_active n label_vec a Hact Hm). cbn.
        by exists st. }
      destruct (matched_activity_trigger _ _ _ Hm) as [trg Hd].
      destruct (find_transition trg (state (_task n)) (transitions (_task n)))
        as [tr|] eqn:Hf.
      * destruct (well_formed_dest_registered n trg tr Hwf Hf) as [st' Hst'].
        rewrite (listener_callback_transition n label_vec a trg tr st'); try done.
        cbn. unfold timer_check_node.
        exists st'. by destruct (bool_decide _).
      * rewrite (listener_callback_no_transition n label_vec a trg st); try done.
        cbn. unfold timer_check_node.
        exists st. by destruct (bool_decide _).
  - destruct label_vec as [|b l]; [left; by rewrite listener_callback_empty|].
    right. split; [|split; [exact Hdef | split; [|exact Hc]]].
    + rewrite (listener_callback_unmatched n b l Hm). cbn. by rewrite Hst.
    + rewrite (listener_callback_unmatched n b l Hm). cbn. rewrite Hst. cbn.
      by exists st.
Qed.

(** The whole thread, for a timed step that is the last registered state. *)
Lemma task_timer_thread_last_run
    (n : TaskMonitor) (st : State) (z : Z) (curr_idx : nat) :
  current_state n = Some st ->
  timer_length st = Some z ->
  index (state (_task n)) (keys (states (machine (_task n)))) = Some curr_idx ->
  keys (states (machine (_task n))) !! (curr_idx + 1)%nat = None ->
  task_timer_thread n =
  mkOutcome (Raise IndexError)
            (set_timer_active false (loop_node (Z.to_nat z) z n))
            (tick_trace (Z.to_nat z) z (publish_node n)).
Proof.
  intros Hst Hz Hi Hn. unfold task_timer_thread. run.
  rewrite read_timer_length_run, Hst, Hz. cbn.
  rewrite (timer_loop_run _ n st z Hst Hz). cbn.
  destruct (loop_node_fields (Z.to_nat z) z n) as (Es & Ek & _).
  rewrite (timer_expire_last_run _ curr_idx); [|by rewrite Es, Ek|by rewrite Ek].
  by rewrite app_nil_r.
Qed.

Lemma loop_node_well_formed (k : nat) (z : Z) (n : TaskMonitor) :
  well_formed n -> well_formed (loop_node k z n).
Proof.
  intros Hwf. destruct (wf_registered _ Hwf) as [st Hst].
  destruct k as [|k]; [done|]. cbn [loop_node].
  apply (well_formed_same n); [| |by apply (wf_consistent _ Hwf)|done].
  - unfold definition_of. cbn. by rewrite keys_states_alter.
  - rewrite (current_state_with_timer_length _ _ st); [by eexists|done].
Qed.

(** The outcome of the timer thread on a well-formed node, by cases: the
    current state stores no duration; or it is the last step; or the thread
    runs to its end. *)
Lemma task_timer_thread_well_formed_cases (n : TaskMonitor) :
  well_formed n ->
  let o := task_timer_thread n in
  (o = mkOutcome (Raise AttributeError) n []) \/
  (value o = Raise IndexError /\ well_formed (node o)) \/
  (value o = Ret tt /\ well_formed (node o)).
Proof.
  intros Hwf o. subst o.
  destruct (wf_registered _ Hwf) as [st Hst].
  destruct (timer_length st) as [z|] eqn:Hz.
  2:{ left. unfold task_timer_thread. run.
      by rewrite read_timer_length_run, Hst, Hz. }
  right.
  pose proof (wf_built _ Hwf) as Hb. destruct Hb as [Hk Hnd Hto].
  assert (Hin : state (_task n) ∈ keys (states (machine (_task n))))
    by (apply states_get_elem_of; by exists st).
  destruct (index_elem_of _ _ Hin) as [i Hi].
  pose proof (loop_node_well_formed (Z.to_nat z) z n Hwf) as Hwf'.
  destruct (keys (states (machine (_task n))) !! (i + 1)%nat) as [nx|] eqn:Hn.
  - right.
    assert (Hnx : nx ∈ steps (_task n))
      by (rewrite <- Hk; by eapply list_elem_of_lookup_2).
    destruct (proj2 (states_get_elem_of nx (states (machine (_task n)))))
      as [st' Hst']; [by rewrite Hk|].
    assert (Hne : nx <> state (_task n)).
    { intros ->. apply index_Some_lookup in Hi.
      pose proof (NoDup_lookup _ _ _ _ (eq_ind_r NoDup Hnd Hk) Hi Hn). lia. }
    rewrite (task_timer_thread_run n st z i nx st'); try done.
    2:{ rewrite Forall_forall in Hto. by apply Hto. }
    split; [done|]. cbn [node].
    apply (well_formed_same (loop_node (Z.to_nat z) z n)); [done| | |done].
    + unfold current_state, expired_node. cbn.
      destruct (Z.to_nat z) as [|k]; cbn [loop_node]; [by exists st'|].
      cbn. rewrite states_get_alter. destruct (decide _); [done|by exists st'].
    + reflexivity.
  - left. rewrite (task_timer_thread_last_run n st z i); try done.
    split; [done|]. cbn [node].
    apply (well_formed_same (loop_node (Z.to_nat z) z n)); try done.
    + apply (wf_registered _ Hwf').
    + apply (wf_consistent _ Hwf').
Qed.

Lemma well_formed_perform (op : operation) (n : TaskMonitor) :
  well_formed n -> well_formed (after (perform op) n).
Proof.
  intros Hwf. destruct op as [label_vec| |]; cbn [perform]; unfold after.
  - destruct (listener_callback_well_formed_cases n label_vec Hwf)
      as [[_ ->]|(_ & Hd & Hr & Hc)]; [done|].
    by apply (well_formed_same n).
  - destruct (wf_registered _ Hwf) as [st Hst].
    rewrite publish_task_state_message_run, Hst. cbn.
    apply (well_formed_same n);
      [done | by exists st | apply (wf_consistent _ Hwf) | done].
  - destruct (task_timer_thread_well_formed_cases n Hwf)
      as [->|[[_ H]|[_ H]]]; done.
Qed.

Lemma well_formed_run_session (ops : list operation) (n : TaskMonitor) :
  well_formed n -> well_formed (run_session ops n).
Proof.
  revert n. induction ops as [|op ops IH]; intros n Hwf; [done|].
  cbn. apply IH. by apply well_formed_perform.
Qed.

Lemma definition_of_run_session (ops : list operation) (n : TaskMonitor) :
  definition_of (run_session ops n) = definition_of n.
Proof.
  unfold run_session. revert n.
  induction ops as [|op ops IH]; intros n; [done|].
  cbn [foldl]. rewrite IH. apply (same_definition_perform op n).
Qed.

(** The node the constructor leaves for a task built from its steps. *)
Lemma well_formed_constructed (t : Task) (d : gmap string string) :
  task_built t ->
  Forall (fun tr => dest tr ∈ steps t) (transitions t) ->
  state t ∈ steps t ->
  well_formed (after publish_task_state_message (TaskMonitor_fields t d)).
Proof.
  intros Hb Hds Hst.
  assert (Hwf : well_formed (TaskMonitor_fields t d)).
  { split; try done. apply states_get_elem_of. cbn. by rewrite (built_keys _ Hb). }
  apply (well_formed_perform PublishState _ Hwf).
Qed.

Lemma well_formed_monitor0 : well_formed monitor0.
Proof.
  apply (well_formed_constructed Task_init); [apply task_built_Task_init|..];
    by_evaluation.
Qed.

(** ** Sessions *)

(** X1. Through any sequence of observations, publications and timer
    threads, each run to its end, the step the node tracks stays the state
    of the machine. *)
Theorem run_session_consistent (ops : list operation) (n : TaskMonitor) :
  consistent n -> consistent (run_session ops n).
Proof.
  revert n. induction ops as [|op ops IH]; intros n H; [done|].
  cbn. apply IH. by apply consistent_perform.
Qed.

Lemma run_session_consistent_witness :
  consistent monitor0 /\
  consistent (run_session [ Listener ["opening bottle"]; Listener ["making tea"];
                            TimerThread; Listener ["opening bottle"] ] monitor0).
Proof.
  split; [vm_compute; reflexivity|].
  apply (run_session_consistent
           [ Listener ["opening bottle"]; Listener ["making tea"];
             TimerThread; Listener ["opening bottle"] ] monitor0).
  vm_compute. reflexivity.
Defined.

(** X2. A session that starts with the constructor, for a task whose machine
    was built from its steps and whose transitions lead to steps, stays
    well-formed: whatever is observed and whenever timers run, the machine's
    state is one of the task's steps and has a state object. *)
Theorem run_session_state_is_step
    (t : Task) (d : gmap string string) (ops : list operation) :
  task_built t ->
  Forall (fun tr => dest tr ∈ steps t) (transitions t) ->
  state t ∈ steps t ->
  let n := run_session ops (after publish_task_state_message (TaskMonitor_fields t d)) in
  well_formed n /\
  state (_task n) ∈ steps t /\
  _current_step n ∈ steps t /\
  steps (_task n) = steps t.
Proof.
  intros Hb Hds Hst n.
  pose proof (well_formed_constructed t d Hb Hds Hst) as Hwf0.
  pose proof (well_formed_run_session ops _ Hwf0) as Hwf. fold n in Hwf.
  assert (Hsteps : steps (_task n) = steps t).
  { subst n. pose proof (definition_of_run_session ops
      (after publish_task_state_message (TaskMonitor_fields t d))) as H.
    pose proof (same_definition_perform PublishState (TaskMonitor_fields t d)) as H'.
    unfold same_definition in H'. cbn [perform] in H'. unfold after in *.
    rewrite H' in H. unfold definition_of in H. by injection H. }
  assert (Hin : state (_task n) ∈ steps t).
  { rewrite <- Hsteps, <- (built_keys _ (wf_built _ Hwf)).
    apply states_get_elem_of, (wf_registered _ Hwf). }
  split; [exact Hwf|]. split; [exact Hin|]. split; [|exact Hsteps].
  pose proof (wf_consistent _ Hwf) as Hc. unfold consistent in Hc.
  by rewrite Hc.
Qed.

Lemma run_session_state_is_step_witness :
  task_built Task_init /\
  Forall (fun tr => dest tr ∈ steps Task_init) (transitions Task_init) /\
  state Task_init ∈ steps Task_init /\
  let n := run_session [ Listener ["making tea"]; Listener ["opening bottle"];
                         Listener []; Listener ["making tea"]; TimerThread ]
             (after publish_task_state_message
                (TaskMonitor_fields Task_init (_activity_action_dict monitor0))) in
  well_formed n /\
  state (_task n) ∈ steps Task_init /\
  _current_step n ∈ steps Task_init /\
  steps (_task n) = steps Task_init.
Proof.
  assert (Hb : task_built Task_init) by exact task_built_Task_init.
  assert (Hd : Forall (fun tr => dest tr ∈ steps Task_init) (transitions Task_init))
    by by_evaluation.
  assert (Hs : state Task_init ∈ steps Task_init) by by_evaluation.
  split; [exact Hb|]. split; [exact Hd|]. split; [exact Hs|].
  exact (run_session_state_is_step Task_init (_activity_action_dict monitor0)
           [ Listener ["making tea"]; Listener ["opening bottle"];
             Listener []; Listener ["making tea"]; TimerThread ] Hb Hd Hs).
Defined.

(** X3. In a well-formed node, and so at any point of a session that
    started well-formed, the activity handler returns for every observation
    that carries a label; the only exception it raises is the [IndexError]
    of an observation without labels. *)
Theorem listener_callback_returns
    (ops : list operation) (n : TaskMonitor) (label_vec : list string) :
  well_formed n ->
  let o := listener_callback label_vec (run_session ops n) in
  (label_vec <> [] -> value o = Ret tt) /\
  (label_vec = [] -> value o = Raise IndexError) /\
  (forall e, value o = Raise e -> e = IndexError /\ label_vec = []).
Proof.
  intros Hwf o. subst o.
  pose proof (well_formed_run_session ops n Hwf) as Hwf'.
  destruct (listener_callback_well_formed_cases _ label_vec Hwf')
    as [[-> ->]|(Hv & _)]; cbn.
  - split; [done|]. split; [done|]. intros e' [= <-]. done.
  - rewrite Hv. split; [done|]. split; [|intros e' [=]].
    intros ->. rewrite listener_callback_empty in Hv. discriminate.
Qed.

Lemma listener_callback_returns_witness :
  well_formed monitor0 /\
  let o := listener_callback ["stirring"; "making tea"]
             (run_session [ Listener ["opening bottle"] ] monitor0) in
  (["stirring"; "making tea"] <> [] -> value o = Ret tt) /\
  (["stirring"; "making tea"] = [] -> value o = Raise IndexError) /\
  (forall e, value o = Raise e -> e = IndexError /\ ["stirring"; "making tea"] = []).
Proof.
  split; [exact well_formed_monitor0|].
  exact (listener_callback_returns [ Listener ["opening bottle"] ] monitor0
           ["stirring"; "making tea"] well_formed_monitor0).
Defined.

(** ** The activity handler: a transition is taken *)

(** X4. A matched label whose trigger has a transition out of the current
    state, while no timer runs: the machine moves to the destination of the
    first declared such transition, the node records the step it leaves as
    [_previous_step], and the one message published shows the new step
    (underscores replaced), the step left (as it is stored), the matched
    label and the duration stored for the new step, or -1.  A timer thread
    is started, and [_timer_active] set, exactly when that duration is
    positive. *)
Theorem listener_callback_takes_transition
    (n : TaskMonitor) (label_vec : list string) (a trg : string)
    (tr : Transition) (st' : State) :
  _timer_active n = false ->
  matched_activity n label_vec = Some a ->
  _activity_action_dict n !! a = Some trg ->
  find_transition trg (state (_task n)) (transitions (_task n)) = Some tr ->
  states_get (dest tr) (states (machine (_task n))) = Some st' ->
  let o := listener_callback label_vec n in
  value o = Ret tt /\
  state (_task (node o)) = dest tr /\
  _current_step (node o) = dest tr /\
  _previous_step (node o) = Some (_current_step n) /\
  _current_activity (node o) = Some a /\
  _timer_active (node o) = bool_decide (0 < remaining_of st') /\
  (ThreadStart ∈ trace o <-> 0 < remaining_of st') /\
  published (trace o) =
    [ TaskUpdate.mk (name (_task n)) (description (_task n)) (items (_task n))
        (map (replace "_"%char " "%char) (steps (_task n)))
        (replace "_"%char " "%char (dest tr))
        (_current_step n)
        a
        (_next_activity (node o))
        (remaining_of st') ].
Proof.
  intros Hact Hm Hd Hf Hst o. subst o.
  rewrite (listener_callback_transition n label_vec a trg tr st' Hact Hm Hd Hf Hst).
  cbn. unfold timer_check_node, timer_check_trace.
  change (published (_ :: Publish ?m :: ?r)) with (m :: published r).
  destruct (bool_decide (0 < remaining_of st')) eqn:E; cbn.
  - apply bool_decide_eq_true in E.
    repeat split; try done. intros _. do 2 right. left.
  - apply bool_decide_eq_false in E. rewrite Hact.
    repeat split; try done.
    intros H. inversion H as [|? ? ? H']; subst.
    inversion H' as [|? ? ? H'']; subst. inversion H''.
Qed.

Lemma listener_callback_takes_transition_witness :
  _timer_active placing = false /\
  matched_activity placing ["stirring"; "making tea"] = Some "making tea" /\
  _activity_action_dict placing !! "making tea" = Some "make_tea" /\
  find_transition "make_tea" (state (_task placing)) (transitions (_task placing))
    = Some (mkTransition "make_tea" "place_tea_bag_into_cup" "steep_for_20_seconds") /\
  states_get "steep_for_20_seconds" (states (machine (_task placing)))
    = Some (mkState (Some 20)) /\
  let o := listener_callback ["stirring"; "making tea"] placing in
  value o = Ret tt /\
  state (_task (node o)) = "steep_for_20_seconds" /\
  _current_step (node o) = "steep_for_20_seconds" /\
  _previous_step (node o) = Some (_current_step placing) /\
  _current_activity (node o) = Some "making tea" /\
  _timer_active (node o) = bool_decide (0 < remaining_of (mkState (Some 20))) /\
  (ThreadStart ∈ trace o <-> 0 < remaining_of (mkState (Some 20))) /\
  published (trace o) =
    [ TaskUpdate.mk (name (_task placing)) (description (_task placing))
        (items (_task placing))
        (map (replace "_"%char " "%char) (steps (_task placing)))
        (replace "_"%char " "%char "steep_for_20_seconds")
        (_current_step placing)
        "making tea"
        (_next_activity (node o))
        (remaining_of (mkState (Some 20))) ].
Proof.
  repeat (split; [vm_compute; reflexivity|]).
  apply (listener_callback_takes_transition placing ["stirring"; "making tea"]
           "making tea" "make_tea"
           (mkTransition "make_tea" "place_tea_bag_into_cup" "steep_for_20_seconds")
           (mkState (Some 20)));
    vm_compute; reflexivity.
Defined.

(** X5. A matched label whose trigger has no transition out of the current
    state, while no timer runs and the current state stores a positive
    duration (a timed step reached by the timer of the step before it, or
    the first step): after the failed call and the publication the handler
    starts the timer thread of the current state and sets [_timer_active]. *)
Theorem listener_callback_failed_trigger_starts_timer
    (n : TaskMonitor) (label_vec : list string) (a trg : string)
    (st : State) (z : Z) :
  _timer_active n = false ->
  matched_activity n label_vec = Some a ->
  _activity_action_dict n !! a = Some trg ->
  find_transition trg (state (_task n)) (transitions (_task n)) = None ->
  current_state n = Some st ->
  timer_length st = Some z ->
  0 < z ->
  let o := listener_callback label_vec n in
  value o = Ret tt /\
  _timer_active (node o) = true /\
  state (_task (node o)) = state (_task n) /\
  exists m, trace o = [Trigger trg; Publish m; ThreadStart] /\
            TaskUpdate.time_remaining_until_next_task m = z.
Proof.
  intros Hact Hm Hd Hf Hst Hz Hpos o. subst o.
  rewrite (listener_callback_no_transition n label_vec a trg st Hact Hm Hd Hf Hst).
  cbn. unfold timer_check_node, timer_check_trace, remaining_of. rewrite Hz. cbn.
  rewrite bool_decide_eq_true_2 by done. repeat split. by eexists.
Qed.

Lemma listener_callback_failed_trigger_starts_timer_witness :
  _timer_active steep_first = false /\
  matched_activity steep_first ["making tea"] = Some "making tea" /\
  _activity_action_dict steep_first !! "making tea" = Some "make_tea" /\
  find_transition "make_tea" (state (_task steep_first))
                  (transitions (_task steep_first)) = None /\
  current_state steep_first = Some (mkState (Some 3)) /\
  timer_length (mkState (Some 3)) = Some 3 /\
  0 < 3 /\
  let o := listener_callback ["making tea"] steep_first in
  value o = Ret tt /\
  _timer_active (node o) = true /\
  state (_task (node o)) = state (_task steep_first) /\
  exists m, trace o = [Trigger "make_tea"; Publish m; ThreadStart] /\
            TaskUpdate.time_remaining_until_next_task m = 3.
Proof.
  repeat (split; [vm_compute; reflexivity|]).
  apply (listener_callback_failed_trigger_starts_timer steep_first ["making tea"]
           "making tea" "make_tea" (mkState (Some 3)) 3);
    vm_compute; reflexivity.
Defined.

(** ** The timer thread on the last step *)

(** X6. The timed step is the last of the task's steps: the thread counts
    down as for any step and then raises [IndexError] when it looks up the
    step after it.  By then [_timer_active] is unset and the stored
    duration is used up; the machine's state and the tracked steps are as
    before, no [to_<state>] method is called and nothing is published
    after the countdown. *)
Theorem task_timer_thread_last_step_raises
    (n : TaskMonitor) (st : State) (d : Z) (i : nat) :
  task_built (_task n) ->
  steps (_task n) !! i = Some (state (_task n)) ->
  List.length (steps (_task n)) = S i ->
  current_state n = Some st ->
  timer_length st = Some d ->
  0 < d ->
  let o := task_timer_thread n in
  value o = Raise IndexError /\
  _timer_active (node o) = false /\
  state (_task (node o)) = state (_task n) /\
  _current_step (node o) = _current_step n /\
  _previous_step (node o) = _previous_step n /\
  current_state (node o) = Some (mkState (Some 0)) /\
  tick_remaining d n = map (fun i => d - Z.of_nat i) (seq 0 (Z.to_nat d)) /\
  trace o = trace (timer_loop (Z.to_nat d) n).
Proof.
  intros [Hk Hnd Hto] Hi Hlen Hst Hd Hpos o. subst o.
  assert (Hidx : index (state (_task n)) (keys (states (machine (_task n)))) = Some i)
    by (rewrite Hk; by apply index_lookup).
  assert (Hnone : keys (states (machine (_task n))) !! (i + 1)%nat = None)
    by (rewrite Hk; apply lookup_ge_None; lia).
  rewrite (task_timer_thread_last_run n st d i Hst Hd Hidx Hnone).
  unfold tick_remaining. rewrite (timer_loop_run _ n st d Hst Hd). cbn [value node trace].
  destruct (loop_node_fields (Z.to_nat d) d n) as (Es & _ & _ & Ec).
  pose proof (loop_node_current_state (Z.to_nat d) d n st Hst Hd) as Hcs.
  replace (d - Z.of_nat (Z.to_nat d)) with 0 in Hcs by lia.
  repeat split; try done.
  - destruct (Z.to_nat d); cbn; [done|]. reflexivity.
  - apply tick_trace_remaining.
Qed.

Lemma task_built_steeping_last : task_built (_task steeping_last).
Proof. split; by_evaluation. Qed.

Lemma task_timer_thread_last_step_raises_witness :
  task_built (_task steeping_last) /\
  steps (_task steeping_last) !! 1%nat = Some (state (_task steeping_last)) /\
  List.length (steps (_task steeping_last)) = 2%nat /\
  current_state steeping_last = Some (mkState (Some 2)) /\
  timer_length (mkState (Some 2)) = Some 2 /\
  0 < 2 /\
  let o := task_timer_thread steeping_last in
  value o = Raise IndexError /\
  _timer_active (node o) = false /\
  state (_task (node o)) = state (_task steeping_last) /\
  _current_step (node o) = _current_step steeping_last /\
  _previous_step (node o) = _previous_step steeping_last /\
  current_state (node o) = Some (mkState (Some 0)) /\
  tick_remaining 2 steeping_last = map (fun i => 2 - Z.of_nat i) (seq 0 (Z.to_nat 2)) /\
  trace o = trace (timer_loop (Z.to_nat 2) steeping_last).
Proof.
  assert (Hb : task_built (_task steeping_last)) by exact task_built_steeping_last.
  split; [exact Hb|].
  repeat (split; [vm_compute; reflexivity|]).
  apply (task_timer_thread_last_step_raises steeping_last (mkState (Some 2)) 2 1 Hb);
    vm_compute; reflexivity.
Defined.

(** ** What the handlers do to the outside *)

Section OnlyEffects.
Context (P : effect -> Prop).

Lemma only_effects_pass : only_effects P pass.
Proof. intros n. constructor. Qed.

Lemma only_effects_ret {A : Type} (a : A) : only_effects P (mret a : M A).
Proof. intros n. constructor. Qed.

Lemma only_effects_raise {A : Type} (e : exn) : only_effects P (raise e : M A).
Proof. intros n. constructor. Qed.

Lemma only_effects_gets {A : Type} (f : TaskMonitor -> A) : only_effects P (gets f).
Proof. intros n. constructor. Qed.

Lemma only_effects_modify (f : TaskMonitor -> TaskMonitor) : only_effects P (modify f).
Proof. intros n. constructor. Qed.

Lemma only_effects_emit (e : effect) : P e -> only_effects P (emit e).
Proof. intros H n. by repeat constructor. Qed.

Lemma only_effects_bind {A B : Type} (m : M A) (f : A -> M B) :
  only_effects P m -> (forall a, only_effects P (f a)) -> only_effects P (m ≫= f).
Proof.
  intros Hm Hf n. unfold mbind, M_bind. specialize (Hm n).
  destruct (m n) as [[a|e] n' tr]; cbn in *; [|done].
  specialize (Hf a n'). destruct (f a n') as [v n'' tr']; cbn in *.
  by apply Forall_app.
Qed.

Lemma only_effects_try_except {A : Type} (body handler : M A) (e : exn) :
  only_effects P body -> only_effects P handler ->
  only_effects P (try_except body e handler).
Proof.
  intros Hb Hh n. unfold try_except. specialize (Hb n).
  destruct (body n) as [[a|e'] n' tr]; cbn in *; [done|].
  destruct (exn_eqb e' e); cbn; [|done].
  specialize (Hh n'). destruct (handler n') as [v n'' tr']; cbn in *.
  by apply Forall_app.
Qed.
End OnlyEffects.

(** Breaks an operation down to the effects it emits. *)
Ltac effects_with leaf :=
  repeat first
    [ leaf
    | apply only_effects_pass
    | apply only_effects_ret
    | apply only_effects_raise
    | apply only_effects_gets
    | apply only_effects_modify
    | apply only_effects_emit; exact I
    | apply only_effects_try_except
    | apply only_effects_bind; [|intros ?]
    | match goal with
      | |- only_effects _ (match ?x with _ => _ end) => destruct x
      end ].

Lemma timer_effect_publish : only_effects timer_effect publish_task_state_message.
Proof.
  intros n. rewrite publish_task_state_message_run.
  destruct (current_state n); by repeat constructor.
Qed.

Lemma timer_effect_timer_loop (k : nat) : only_effects timer_effect (timer_loop k).
Proof.
  induction k as [|k IH]; cbn [timer_loop].
  - effects_with fail.
  - effects_with ltac:(first [ apply timer_effect_publish | apply IH ]).
Qed.

(** X7. Whatever the node, the timer thread only publishes, sleeps and
    calls a [to_<state>] method: it calls no trigger of the task and never
    starts a timer thread, also when the step it moves to stores a duration
    of its own. *)
Theorem task_timer_thread_effects (n : TaskMonitor) :
  Forall timer_effect (trace (task_timer_thread n)) /\
  (forall trg, Trigger trg ∉ trace (task_timer_thread n)) /\
  (ThreadStart ∉ trace (task_timer_thread n)).
Proof.
  assert (H : only_effects timer_effect task_timer_thread).
  { unfold task_timer_thread.
    effects_with ltac:(first [ apply timer_effect_timer_loop
                             | apply timer_effect_publish ]). }
  specialize (H n). rewrite Forall_forall in H.
  split; [by apply Forall_forall|].
  split; [intros trg Hin|intros Hin]; apply (H _ Hin).
Qed.

(** Case analysis along a run of the handler, with what is known of its
    trace kept in the goal. *)
Ltac listener_cases :=
  unfold listener_callback; run; run_cases.

(** X8. Whatever the node and the observation, the activity handler calls
    at most one trigger, then publishes at most one message, then starts at
    most one timer thread, and does nothing else to the outside; it never
    unsets [_timer_active]. *)
Theorem listener_callback_effects (n : TaskMonitor) (label_vec : list string) :
  let o := listener_callback label_vec n in
  (exists (trg : option string) (m : option TaskUpdate.t) (started : bool),
     trace o =
     (from_option (fun x => [Trigger x]) [] trg ++
      from_option (fun x => [Publish x]) [] m ++
      (if started then [ThreadStart] else []))%list) /\
  Forall listener_effect (trace o) /\
  implb (_timer_active n) (_timer_active (node o)) = true.
Proof.
  intros o. subst o. listener_cases.
  all: split;
    [ first [ by exists None, None, false
            | by eexists (Some _), None, false
            | by eexists None, (Some _), false
            | by eexists (Some _), (Some _), false
            | by eexists (Some _), (Some _), true ]
    | split; [by repeat constructor|] ].
  all: repeat match goal with
         | H : _timer_active _ = _ |- _ => rewrite H
         end.
  all: by destruct (_timer_active n).
Qed.

(** X9. The handler starts a timer thread only when [_timer_active] was
    unset, and it has set the flag by then; the machine's state at that
    point stores a positive duration, which is what the thread counts down
    from. *)
Theorem listener_callback_thread_start (n : TaskMonitor) (label_vec : list string) :
  ThreadStart ∈ trace (listener_callback label_vec n) ->
  let o := listener_callback label_vec n in
  _timer_active n = false /\
  _timer_active (node o) = true /\
  exists st z, current_state (node o) = Some st /\
               timer_length st = Some z /\ 0 < z.
Proof.
  intros H o. subst o. revert H. listener_cases.
  all: intros H; apply list_elem_of_In in H; cbn in H.
  all: try (exfalso; intuition discriminate).
  all: repeat match goal with
         | H : bool_decide _ = true |- _ => apply bool_decide_eq_true in H
         | H : current_state _ = Some _ |- _ =>
             unfold current_state in H; cbn in H
         end.
  all: split; [done|]; split; [done|].
  all: unfold current_state; cbn; eauto.
Qed.

Lemma listener_callback_thread_start_witness :
  ThreadStart ∈ trace (listener_callback ["making tea"] placing) /\
  let o := listener_callback ["making tea"] placing in
  _timer_active placing = false /\
  _timer_active (node o) = true /\
  exists st z, current_state (node o) = Some st /\
               timer_length st = Some z /\ 0 < z.
Proof.
  assert (H : ThreadStart ∈ trace (listener_callback ["making tea"] placing))
    by (apply list_elem_of_In; vm_compute; right; right; left; reflexivity).
  split; [exact H|].
  exact (listener_callback_thread_start placing ["making tea"] H).
Defined.

(** ** The next activity, through a session *)

Lemma publish_next_activity_first_declared_witness :
  current_state placing = Some (mkState None) /\
  first_outgoing placing
    = Some (mkTransition "make_tea" "place_tea_bag_into_cup" "steep_for_20_seconds") /\
  let tr := mkTransition "make_tea" "place_tea_bag_into_cup" "steep_for_20_seconds" in
  let o := publish_task_state_message placing in
  _next_activity (node o) = Some (trigger tr) /\
  (exists m, trace o = [Publish m] /\ TaskUpdate.next_activity m = Some (trigger tr)) /\
  source tr = state (_task placing) /\
  exists before later,
    transitions (_task placing) = (before ++ tr :: later)%list /\
    Forall (fun tr' => source tr' <> state (_task placing)) before.
Proof.
  repeat (split; [vm_compute; reflexivity|]).
  apply (publish_next_activity_first_declared placing (mkState None)
           (mkTransition "make_tea" "place_tea_bag_into_cup" "steep_for_20_seconds"));
    vm_compute; reflexivity.
Defined.

(** X11. Through any session the value held in [_next_activity], and with
    it the [next_activity] of every message, is either unset or the trigger
    of the first declared transition out of some state: triggers that are
    declared behind another one with the same source are never reported. *)
Theorem run_session_next_activity (ops : list operation) (n : TaskMonitor) :
  next_activity_computed n ->
  next_activity_computed (run_session ops n) /\
  forall v, _next_activity (run_session ops n) = Some v ->
    exists tr before later,
      trigger tr = v /\
      transitions (_task n) = (before ++ tr :: later)%list /\
      Forall (fun tr' => source tr' <> source tr) before.
Proof.
  intros H.
  assert (Hc : next_activity_computed (run_session ops n)).
  { revert n H. unfold run_session.
    induction ops as [|op ops IH]; intros n H; [done|].
    cbn [foldl]. apply IH. by apply next_activity_computed_perform. }
  split; [exact Hc|]. intros v Hv.
  unfold next_activity_computed in Hc. rewrite Hv in Hc.
  destruct Hc as (s & tr & Hf & Ht).
  pose proof (definition_of_run_session ops n) as Hd.
  unfold definition_of in Hd. injection Hd as _ _ _ _ Htr _ _ _.
  rewrite Htr in Hf. exists tr. clear -Hf Ht.
  induction (transitions (_task n)) as [|tr0 l IH]; [done|].
  cbn in Hf. destruct (bool_decide (source tr0 = s)) eqn:E.
  - injection Hf as ->. by exists [], l.
  - apply bool_decide_eq_false in E.
    destruct (IH Hf) as (before & later & Hv & -> & Hb).
    exists (tr0 :: before), later. repeat split; [done|].
    constructor; [|done].
    apply find_some in Hf as [_ Hs%bool_decide_eq_true]. congruence.
Qed.

Lemma run_session_next_activity_witness :
  next_activity_computed monitor0 /\
  let ops := [ Listener ["opening bottle"]; Listener ["making tea"]; TimerThread ] in
  next_activity_computed (run_session ops monitor0) /\
  forall v, _next_activity (run_session ops monitor0) = Some v ->
    exists tr before later,
      trigger tr = v /\
      transitions (_task monitor0) = (before ++ tr :: later)%list /\
      Forall (fun tr' => source tr' <> source tr) before.
Proof.
  assert (H : next_activity_computed monitor0).
  { exists "open_bottle_and_pour_water_into_cup",
      (mkTransition "open_bottle" "open_bottle_and_pour_water_into_cup"
                    "place_tea_bag_into_cup").
    vm_compute. split; reflexivity. }
  split; [exact H|].
  exact (run_session_next_activity
           [ Listener ["opening bottle"]; Listener ["making tea"]; TimerThread ]
           monitor0 H).
Defined.

(** ** Publications *)

(** X12. Publishing again right after a publication leaves the node as
    the first publication left it, the held next activity included, and
    ends the same way: it returns, or raises the same [KeyError].  The two
    messages are not compared: each carries the time of its own
    publication in its header (line 179). *)
Theorem publish_task_state_message_twice (n : TaskMonitor) :
  let o1 := publish_task_state_message n in
  let o2 := publish_task_state_message (node o1) in
  node o2 = node o1 /\ value o2 = value o1.
Proof.
  cbn zeta. rewrite !publish_task_state_message_run.
  destruct (current_state n) as [st|] eqn:Hst; cbn;
    rewrite current_state_publish_node, Hst; by rewrite publish_node_idem.
Qed.

Lemma replace_not_occurs (old new : Ascii.ascii) (s : string) :
  old <> new -> ~ occurs old (replace old new s).
Proof.
  intros Hne. unfold occurs. induction s as [|c s IH]; cbn; [tauto|].
  intros [H|H]; [|done].
  destruct (Ascii.eqb c old) eqn:E; [congruence|].
  apply Ascii.eqb_neq in E. congruence.
Qed.

(** X13. In every message that is published, the current step and the
    steps of the task come without underscores, each as long as the name
    it stands for, while the previous step is the stored name with its
    underscores, or "N/A". *)
Theorem published_names (n : TaskMonitor) (m : TaskUpdate.t) :
  Publish m ∈ trace (publish_task_state_message n) ->
  ~ occurs "_"%char (TaskUpdate.current_step m) /\
  String.length (TaskUpdate.current_step m) = String.length (_current_step n) /\
  Forall (fun s => ~ occurs "_"%char s) (TaskUpdate.steps m) /\
  map String.length (TaskUpdate.steps m) = map String.length (steps (_task n)) /\
  TaskUpdate.previous_step m = default "N/A" (_previous_step n).
Proof.
  rewrite publish_task_state_message_run.
  destruct (current_state n) as [st|]; cbn; [|by intros ?%elem_of_nil].
  intros [E|?%elem_of_nil]%elem_of_cons; [|done]. injection E as ->. cbn.
  assert (Hlen : forall s, String.length (replace "_"%char " "%char s) = String.length s).
  { induction s as [|c s IH]; cbn; [done|]. by rewrite IH. }
  repeat split.
  - by apply replace_not_occurs.
  - apply Hlen.
  - apply Forall_forall. intros s [s' [<- _]]%list_elem_of_In%in_map_iff.
    by apply replace_not_occurs.
  - rewrite map_map. apply map_ext. intros s. apply Hlen.
Qed.

Lemma published_names_witness :
  let m := message_of (publish_node placing) (-1) in
  Publish m ∈ trace (publish_task_state_message placing) /\
  ~ occurs "_"%char (TaskUpdate.current_step m) /\
  String.length (TaskUpdate.current_step m) = String.length (_current_step placing) /\
  Forall (fun s => ~ occurs "_"%char s) (TaskUpdate.steps m) /\
  map String.length (TaskUpdate.steps m) = map String.length (steps (_task placing)) /\
  TaskUpdate.previous_step m = default "N/A" (_previous_step placing).
Proof.
  intros m.
  assert (H : Publish m ∈ trace (publish_task_state_message placing))
    by (apply list_elem_of_In; vm_compute; left; reflexivity).
  split; [exact H|].
  exact (published_names placing m H).
Defined.

(** ** The activity detector *)

Section SwinBFacts.
Context (W : SwinB.World).
Implicit Types (self : SwinB.SwinBTransformer W) (frame_iter : list (SwinB.frame W)).

Lemma class_names_in_range (labels : list string) (indices : list nat) :
  Forall (fun i => (i < List.length labels)%nat) indices ->
  exists names,
    SwinB.class_names labels indices = SwinB.Ret names /\
    Forall2 (fun i l => labels !! i = Some l) indices names.
Proof.
  induction 1 as [|i indices Hi _ (names & IH & HF)]; cbn.
  - exists []. by split.
  - destruct (lookup_lt_is_Some_2 labels i Hi) as [l Hl].
    rewrite Hl, IH. exists (l :: names). split; [done|]. by constructor.
Qed.

Lemma class_names_out_of_range (labels : list string) (indices : list nat) :
  Exists (fun i => (List.length labels <= i)%nat) indices ->
  SwinB.class_names labels indices = SwinB.Raise SwinB.IndexError.
Proof.
  induction 1 as [i indices Hi|i indices _ IH]; cbn.
  - by rewrite (proj2 (lookup_ge_None labels i) Hi).
  - destruct (labels !! i); [|done]. by rewrite IH.
Qed.

Lemma over_threshold_selected (labels : list string) (threshold : SwinB.score W)
    (indices : list nat) (names : list string) :
  Forall2 (fun i l => labels !! i = Some l) indices names ->
  forall (seen values : list (SwinB.score W)),
    List.length values = List.length indices ->
    SwinB.over_threshold (List.length seen) names (seen ++ values) threshold =
    SwinB.Ret (selected_labels labels threshold indices values).
Proof.
  induction 1 as [|i l indices names Hl _ IH]; intros seen values Hlen; [done|].
  destruct values as [|v values]; [done|]. cbn in Hlen.
  cbn [SwinB.over_threshold].
  rewrite lookup_app_r by lia. rewrite Nat.sub_diag. cbn [lookup list_lookup].
  specialize (IH (seen ++ [v])%list values).
  rewrite length_app, Nat.add_1_r, <- app_assoc in IH. cbn in IH.
  rewrite IH by lia.
  unfold selected_labels. cbn. rewrite Hl.
  by destruct (SwinB.gt W v threshold).
Qed.

(** X14. The model is loaded lazily and once: after a call of [get_model]
    that returned, the model is stored on the object, and every further
    call returns that model without loading a checkpoint or touching the
    object. *)
Theorem get_model_cached self (m : SwinB.model W) self' (tr : list SwinB.effect) :
  SwinB.get_model self = (SwinB.Ret m, self', tr) ->
  SwinB._model self' = Some m /\
  SwinB.get_model self' = (SwinB.Ret m, self', []).
Proof.
  unfold SwinB.get_model.
  destruct (SwinB._model self) as [m0|] eqn:Hm.
  - intros [= -> -> _]. by rewrite Hm.
  - destruct (negb _); [destruct (SwinB.cuda_is_available W)|];
      intros [= <- <- _]; done.
Qed.

(** X15. A device other than [cpu] is asked for and CUDA is not there: a
    call of [get_model] on an object without a model loads the checkpoint,
    raises [RuntimeError] and stores nothing, so that the next call loads
    the checkpoint again. *)
Theorem get_model_cuda_unavailable self :
  SwinB._model self = None ->
  SwinB._torch_device self <> "cpu" ->
  SwinB.cuda_is_available W = false ->
  SwinB.get_model self =
  (SwinB.Raise SwinB.RuntimeError, self,
   [SwinB.LoadCheckpoint (SwinB._checkpoint_path self) (SwinB._num_classes self)]).
Proof.
  intros Hm Hdev Hcuda. unfold SwinB.get_model. rewrite Hm, Hcuda.
  by rewrite (proj2 (String.eqb_neq _ _) Hdev).
Qed.

(** X16. [detect_activities] is given a number of frames other than
    [_sampling_rate * _num_frames]: it raises [AssertionError] before the
    model is asked for; nothing is loaded and the object stays as it is. *)
Theorem detect_activities_frame_count self frame_iter :
  Z.of_nat (List.length frame_iter)
    <> SwinB._sampling_rate self * SwinB._num_frames self ->
  SwinB.detect_activities self frame_iter = (SwinB.Raise SwinB.AssertionError, self, []).
Proof.
  intros H. unfold SwinB.detect_activities.
  by rewrite (proj2 (Z.eqb_neq _ _) H).
Qed.

(** What a call of [get_model] that returned leaves: the model is stored,
    the labels and the threshold are those of before. *)
Lemma get_model_returned self (m : SwinB.model W) self' (tr : list SwinB.effect) :
  SwinB.get_model self = (SwinB.Ret m, self', tr) ->
  SwinB._model self' = Some m /\
  SwinB._labels self' = SwinB._labels self /\
  SwinB._det_threshold self' = SwinB._det_threshold self /\
  SwinB._sampling_rate self' = SwinB._sampling_rate self /\
  SwinB._num_frames self' = SwinB._num_frames self.
Proof.
  unfold SwinB.get_model.
  destruct (SwinB._model self) as [m0|] eqn:Hm.
  - intros [= -> -> _]. by rewrite Hm.
  - destruct (negb _); [destruct (SwinB.cuda_is_available W)|];
      intros [= <- <- _]; done.
Qed.

(** X17. The right number of frames, a model at hand, the frames
    pre-processed and moved to the CUDA device, predictions obtained from
    the model (five of them in the source), and class indices within the
    labels:
    [detect_activities] returns the labels of the predictions whose score
    exceeds the threshold, in the order of the predictions, so at most as
    many labels as there are predictions; when no score exceeds the
    threshold it returns the empty list. *)
Theorem detect_activities_selected self frame_iter
    (m : SwinB.model W) self' (tr : list SwinB.effect)
    (frames on_cuda : SwinB.tensor W)
    (indices : list nat) (values : list (SwinB.score W)) :
  Z.of_nat (List.length frame_iter)
    = SwinB._sampling_rate self * SwinB._num_frames self ->
  SwinB.get_model self = (SwinB.Ret m, self', tr) ->
  SwinB.prepare W (SwinB._sampling_rate self) (SwinB._num_frames self) frame_iter
    = SwinB.Ret frames ->
  SwinB.tensor_cuda W frames = SwinB.Ret on_cuda ->
  SwinB.predict W m on_cuda = SwinB.Ret (indices, values) ->
  List.length values = List.length indices ->
  Forall (fun i => (i < List.length (SwinB._labels self))%nat) indices ->
  let predictions :=
    selected_labels (SwinB._labels self) (SwinB._det_threshold self) indices values in
  SwinB.detect_activities self frame_iter = (SwinB.Ret predictions, self', tr) /\
  (List.length predictions <= List.length indices)%nat /\
  (Forall (fun v => SwinB.gt W v (SwinB._det_threshold self) = false) values ->
   predictions = []).
Proof.
  intros Hlen Hm Hprep Hcuda Hpred Hvals Hin predictions.
  destruct (get_model_returned _ _ _ _ Hm) as (Hmod & Hl & Ht & Hsr & Hnf).
  split; [|split].
  - unfold SwinB.detect_activities.
    rewrite (proj2 (Z.eqb_eq _ _) Hlen), Hm. cbn [negb].
    rewrite Hsr, Hnf, Hprep, Hmod, Hcuda, Hpred, Hl, Ht.
    destruct (class_names_in_range _ _ Hin) as (names & -> & HF).
    by rewrite (over_threshold_selected _ _ _ _ HF [] values Hvals).
  - subst predictions. unfold selected_labels.
    clear. revert values.
    induction indices as [|i indices IH]; intros [|v values]; cbn; try lia.
    destruct (SwinB.gt W v _); [destruct (_ !! i)|]; cbn;
      specialize (IH values); unfold selected_labels in IH; lia.
  - intros Hnone. subst predictions. unfold selected_labels.
    clear -Hnone. revert indices.
    induction Hnone as [|v values Hv _ IH]; intros [|i indices]; cbn; try done.
    rewrite Hv. apply IH.
Qed.

(** X18. The right number of frames, a model at hand, the frames
    pre-processed and moved to the CUDA device and predictions obtained
    from the model, but one of the predicted class indices is not a
    position of the labels (the labels file is shorter than the number of
    classes of the model): [detect_activities] raises [IndexError]. *)
Theorem detect_activities_label_missing self frame_iter
    (m : SwinB.model W) self' (tr : list SwinB.effect)
    (frames on_cuda : SwinB.tensor W)
    (indices : list nat) (values : list (SwinB.score W)) :
  Z.of_nat (List.length frame_iter)
    = SwinB._sampling_rate self * SwinB._num_frames self ->
  SwinB.get_model self = (SwinB.Ret m, self', tr) ->
  SwinB.prepare W (SwinB._sampling_rate self) (SwinB._num_frames self) frame_iter
    = SwinB.Ret frames ->
  SwinB.tensor_cuda W frames = SwinB.Ret on_cuda ->
  SwinB.predict W m on_cuda = SwinB.Ret (indices, values) ->
  Exists (fun i => (List.length (SwinB._labels self) <= i)%nat) indices ->
  SwinB.detect_activities self frame_iter = (SwinB.Raise SwinB.IndexError, self', tr).
Proof.
  intros Hlen Hm Hprep Hcuda Hpred Hex.
  destruct (get_model_returned _ _ _ _ Hm) as (Hmod & Hl & Ht & Hsr & Hnf).
  unfold SwinB.detect_activities.
  rewrite (proj2 (Z.eqb_eq _ _) Hlen), Hm. cbn [negb].
  rewrite Hsr, Hnf, Hprep, Hmod, Hcuda, Hpred, Hl.
  by rewrite (class_names_out_of_range _ _ Hex).
Qed.

(** X19. [get_config] reads [self._cuda_device] first, an attribute that
    [__init__] and [get_model] never assign (the device is kept in
    [_torch_device]): unless a base class provides it, [get_config] raises
    [AttributeError] on every instance. *)
Theorem get_config_raises self :
  "_cuda_device" ∉ SwinB.inherited_attributes W ->
  SwinB.get_config self = SwinB.Raise SwinB.AttributeError.
Proof.
  intros H. unfold SwinB.get_config, SwinB.attribute_names.
  rewrite bool_decide_eq_false_2; [done|].
  rewrite elem_of_app. intros [?|Hin]; [done|].
  apply list_elem_of_In in Hin. cbn in Hin.
  repeat destruct Hin as [?|Hin]; done.
Qed.
End SwinBFacts.

Lemma get_model_cached_witness :
  let self' := (SwinB.get_model small_detector).1.2 in
  SwinB.get_model small_detector
    = (SwinB.Ret "swin.ckpt", self', [SwinB.LoadCheckpoint "swin.ckpt" 6]) /\
  SwinB._model self' = Some "swin.ckpt" /\
  SwinB.get_model self' = (SwinB.Ret "swin.ckpt", self', []).
Proof.
  intros self'.
  assert (H : SwinB.get_model small_detector
              = (SwinB.Ret "swin.ckpt", self', [SwinB.LoadCheckpoint "swin.ckpt" 6]))
    by (vm_compute; reflexivity).
  split; [exact H|].
  exact (get_model_cached small_world small_detector "swin.ckpt" self' _ H).
Defined.

Lemma get_model_cuda_unavailable_witness :
  SwinB._model cuda_detector = None /\
  SwinB._torch_device cuda_detector <> "cpu" /\
  SwinB.cuda_is_available small_world = false /\
  SwinB.get_model cuda_detector =
  (SwinB.Raise SwinB.RuntimeError, cuda_detector,
   [SwinB.LoadCheckpoint (SwinB._checkpoint_path cuda_detector)
                         (SwinB._num_classes cuda_detector)]).
Proof.
  assert (Hd : SwinB._torch_device cuda_detector <> "cpu")
    by (vm_compute; discriminate).
  split; [reflexivity|]. split; [exact Hd|]. split; [reflexivity|].
  exact (get_model_cuda_unavailable small_world cuda_detector eq_refl Hd eq_refl).
Defined.

Lemma detect_activities_frame_count_witness :
  Z.of_nat (List.length [tt; tt; tt])
    <> SwinB._sampling_rate small_detector * SwinB._num_frames small_detector /\
  SwinB.detect_activities small_detector [tt; tt; tt]
    = (SwinB.Raise SwinB.AssertionError, small_detector, []).
Proof.
  assert (H : Z.of_nat (List.length [tt; tt; tt])
              <> SwinB._sampling_rate small_detector * SwinB._num_frames small_detector)
    by (vm_compute; discriminate).
  split; [exact H|].
  exact (detect_activities_frame_count small_world small_detector [tt; tt; tt] H).
Defined.

Lemma detect_activities_selected_witness :
  let self' := (SwinB.get_model gpu_detector).1.2 in
  let tr := [ SwinB.LoadCheckpoint "swin.ckpt" 6; SwinB.Transfer "cuda:0" ] in
  let indices := [ 1%nat; 0%nat; 4%nat; 2%nat; 3%nat ] in
  let values := [ 90; 80; 10; 5; 1 ] in
  Z.of_nat (List.length [tt; tt])
    = SwinB._sampling_rate gpu_detector * SwinB._num_frames gpu_detector /\
  SwinB.get_model gpu_detector = (SwinB.Ret "swin.ckpt@cuda:0", self', tr) /\
  SwinB.prepare cuda_world (SwinB._sampling_rate gpu_detector)
                (SwinB._num_frames gpu_detector) [tt; tt] = SwinB.Ret [tt; tt] /\
  SwinB.tensor_cuda cuda_world [tt; tt] = SwinB.Ret [tt; tt] /\
  SwinB.predict cuda_world "swin.ckpt@cuda:0" [tt; tt] = SwinB.Ret (indices, values) /\
  List.length values = List.length indices /\
  Forall (fun i => (i < List.length (SwinB._labels gpu_detector))%nat) indices /\
  let predictions :=
    selected_labels (SwinB._labels gpu_detector)
                    (SwinB._det_threshold gpu_detector) indices values in
  predictions = [ "making tea"; "opening bottle" ] /\
  SwinB.detect_activities gpu_detector [tt; tt] = (SwinB.Ret predictions, self', tr) /\
  (List.length predictions <= List.length indices)%nat /\
  (Forall (fun v => SwinB.gt cuda_world v (SwinB._det_threshold gpu_detector) = false)
          values ->
   predictions = []).
Proof.
  intros self' tr indices values.
  assert (Hin : Forall (fun i => (i < List.length (SwinB._labels gpu_detector))%nat)
                       indices)
    by (repeat constructor; vm_compute; lia).
  split; [reflexivity|]. split; [vm_compute; reflexivity|].
  split; [reflexivity|]. split; [reflexivity|]. split; [reflexivity|].
  split; [reflexivity|]. split; [exact Hin|].
  intros predictions. split; [vm_compute; reflexivity|].
  exact (detect_activities_selected cuda_world gpu_detector [tt; tt]
           "swin.ckpt@cuda:0" self' tr [tt; tt] [tt; tt] indices values
           eq_refl eq_refl eq_refl eq_refl eq_refl eq_refl Hin).
Defined.

Lemma detect_activities_label_missing_witness :
  let self' := (SwinB.get_model short_detector).1.2 in
  let tr := [ SwinB.LoadCheckpoint "swin.ckpt" 6; SwinB.Transfer "cuda:0" ] in
  let indices := [ 1%nat; 0%nat; 4%nat; 2%nat; 3%nat ] in
  let values := [ 90; 80; 10; 5; 1 ] in
  Z.of_nat (List.length [tt; tt])
    = SwinB._sampling_rate short_detector * SwinB._num_frames short_detector /\
  SwinB.get_model short_detector = (SwinB.Ret "swin.ckpt@cuda:0", self', tr) /\
  SwinB.prepare cuda_world (SwinB._sampling_rate short_detector)
                (SwinB._num_frames short_detector) [tt; tt] = SwinB.Ret [tt; tt] /\
  SwinB.tensor_cuda cuda_world [tt; tt] = SwinB.Ret [tt; tt] /\
  SwinB.predict cuda_world "swin.ckpt@cuda:0" [tt; tt] = SwinB.Ret (indices, values) /\
  Exists (fun i => (List.length (SwinB._labels short_detector) <= i)%nat) indices /\
  SwinB.detect_activities short_detector [tt; tt]
    = (SwinB.Raise SwinB.IndexError, self', tr).
Proof.
  intros self' tr indices values.
  assert (Hex : Exists (fun i => (List.length (SwinB._labels short_detector) <= i)%nat)
                       indices)
    by (do 2 apply Exists_cons_tl; apply Exists_cons_hd; vm_compute; lia).
  split; [reflexivity|]. split; [vm_compute; reflexivity|].
  split; [reflexivity|]. split; [reflexivity|]. split; [reflexivity|].
  split; [exact Hex|].
  exact (detect_activities_label_missing cuda_world short_detector [tt; tt]
           "swin.ckpt@cuda:0" self' tr [tt; tt] [tt; tt] indices values
           eq_refl eq_refl eq_refl eq_refl eq_refl Hex).
Defined.

Lemma get_config_raises_witness :
  ("_cuda_device" ∉ SwinB.inherited_attributes small_world) /\
  SwinB.get_config small_detector = SwinB.Raise SwinB.AttributeError.
Proof.
  assert (H : "_cuda_device" ∉ SwinB.inherited_attributes small_world)
    by (intros ?%elem_of_nil; done).
  split; [exact H|].
  exact (get_config_raises small_world small_detector H).
Defined.

(** ** The next activity is held while the machine is at states without
    outgoing transition *)

Section Maintains.
Context (I : TaskMonitor -> Prop) (P : effect -> Prop).

Lemma maintains_pass : maintains I P pass.
Proof. intros n H. by split; [|constructor]. Qed.

Lemma maintains_ret {A : Type} (a : A) : maintains I P (mret a : M A).
Proof. intros n H. by split; [|constructor]. Qed.

Lemma maintains_raise {A : Type} (e : exn) : maintains I P (raise e : M A).
Proof. intros n H. by split; [|constructor]. Qed.

Lemma maintains_gets {A : Type} (f : TaskMonitor -> A) : maintains I P (gets f).
Proof. intros n H. by split; [|constructor]. Qed.

Lemma maintains_emit (e : effect) : P e -> maintains I P (emit e).
Proof. intros He n H. split; [done|]. by repeat constructor. Qed.

Lemma maintains_modify (f : TaskMonitor -> TaskMonitor) :
  (forall n, I n -> I (f n)) -> maintains I P (modify f).
Proof. intros Hf n H. split; [by apply Hf|constructor]. Qed.

Lemma maintains_bind {A B : Type} (m : M A) (f : A -> M B) :
  maintains I P m -> (forall a, maintains I P (f a)) -> maintains I P (m ≫= f).
Proof.
  intros Hm Hf n H. unfold mbind, M_bind. destruct (Hm n H) as [Hn Ht].
  destruct (m n) as [[a|e] n' tr]; cbn in *; [|done].
  destruct (Hf a n' Hn) as [Hn' Ht']. destruct (f a n') as [v n'' tr']; cbn in *.
  split; [done|]. by apply Forall_app.
Qed.

Lemma maintains_try_except {A : Type} (body handler : M A) (e : exn) :
  maintains I P body -> maintains I P handler ->
  maintains I P (try_except body e handler).
Proof.
  intros Hb Hh n H. unfold try_except. destruct (Hb n H) as [Hn Ht].
  destruct (body n) as [[a|e'] n' tr]; cbn in *; [done|].
  destruct (exn_eqb e' e); cbn; [|done].
  destruct (Hh n' Hn) as [Hn' Ht']. destruct (handler n') as [v n'' tr']; cbn in *.
  split; [done|]. by apply Forall_app.
Qed.
End Maintains.

(** Breaks an operation down to its assignments and effects; [leaf]
    settles the operations that are called by name. *)
Ltac maintains_with leaf :=
  repeat first
    [ leaf
    | apply maintains_pass
    | apply maintains_ret
    | apply maintains_raise
    | apply maintains_gets
    | apply maintains_emit; exact I
    | apply maintains_try_except
    | apply maintains_bind; [|intros ?]
    | apply maintains_modify; intros ? [? ? ? ? ?]; by split
    | match goal with
      | |- maintains _ _ (match ?x with _ => _ end) => destruct x
      end ].

Section Held.
Context (t0 : Task) (tr : Transition) (dead : list string).
(** [tr] is the first declared transition out of the state of [t0]; the
    states [dead] have no outgoing transition; the transitions out of the
    state of [t0] and the expiry of a timer lead to that state or to one
    of [dead]. *)
Hypothesis first_tr :
  find (fun tr' => bool_decide (source tr' = state t0)) (transitions t0) = Some tr.
Hypothesis dead_states :
  Forall (fun s => find (fun tr' => bool_decide (source tr' = s)) (transitions t0) = None)
         dead.
Hypothesis dests_stay :
  Forall (fun tr' => source tr' = state t0 -> dest tr' ∈ state t0 :: dead)
         (transitions t0).
Hypothesis advance_stay : advance_stays t0 (state t0 :: dead).

Local Abbreviation held := (held_for t0 tr (state t0 :: dead)).
Local Abbreviation named := (names_trigger (trigger tr)).

(** What a publication reports from a node of such a session. *)
Lemma held_peek (n : TaskMonitor) :
  held n ->
  peek_next_expected_trigger (_task n) (_next_activity n) = Some (trigger tr).
Proof.
  intros [Ht _ _ Hs Hv]. unfold peek_next_expected_trigger. rewrite Ht.
  apply elem_of_cons in Hs as [->|Hs]; [by rewrite first_tr|].
  rewrite Forall_forall in dead_states. by rewrite (dead_states _ Hs).
Qed.

Lemma held_publish : maintains held named publish_task_state_message.
Proof.
  intros n H. pose proof (held_peek n H) as Hp. destruct H as [Ht Hk Hd Hs Hv].
  rewrite publish_task_state_message_run.
  assert (Hn : held (publish_node n)) by (split; try done; by cbn).
  destruct (current_state n); cbn; (split; [done|]); by repeat constructor.
Qed.

Lemma held_read_timer_length : maintains held named read_timer_length.
Proof.
  intros n H. rewrite read_timer_length_run.
  destruct (current_state n) as [[[z|]]|]; cbn; by split; [|constructor].
Qed.

Lemma held_decrement_timer_length : maintains held named decrement_timer_length.
Proof.
  intros n H. unfold decrement_timer_length. run. rewrite read_timer_length_run.
  destruct (current_state n) as [[[z|]]|]; cbn; (split; [|constructor]); try done.
  destruct H as [Ht Hk Hd Hs Hv]. split; try done. cbn.
  by rewrite keys_states_alter.
Qed.

Lemma held_call_trigger (trg : string) : maintains held named (call_trigger trg).
Proof.
  intros n H. rewrite call_trigger_run.
  destruct (find_transition _ _ _) as [tr'|] eqn:Hf; cbn;
    [|by split; [|repeat constructor]].
  destruct (states_get _ _); cbn; (split; [|by repeat constructor]); [|done].
  destruct H as [Ht Hk Hd Hs Hv]. split; try done. cbn.
  apply find_transition_elem_of in Hf as (Hin & _ & Hsrc). rewrite Ht in Hin.
  apply elem_of_cons in Hs as [Hs|Hs].
  - rewrite Forall_forall in dests_stay. apply (dests_stay _ Hin). congruence.
  - exfalso. rewrite Forall_forall in dead_states.
    pose proof (dead_states _ Hs) as Hnone.
    apply list_elem_of_In in Hin.
    apply (find_none _ _ Hnone) in Hin. rewrite Hsrc in Hin.
    by rewrite bool_decide_eq_true_2 in Hin.
Qed.

Lemma held_listener_callback (label_vec : list string) :
  maintains held named (listener_callback label_vec).
Proof.
  unfold listener_callback.
  maintains_with ltac:(first [ apply held_publish
                             | apply held_call_trigger
                             | apply held_read_timer_length ]).
Qed.

Lemma held_timer_loop (k : nat) : maintains held named (timer_loop k).
Proof.
  induction k as [|k IH]; cbn [timer_loop].
  - apply maintains_pass.
  - maintains_with ltac:(first [ apply held_publish
                               | apply held_decrement_timer_length
                               | apply IH ]).
Qed.

Lemma held_timer_expire : maintains held named timer_expire.
Proof.
  intros n H.
  assert (Hadv : forall target,
            advance_of (_task n) (state (_task n)) = Some target ->
            target ∈ state t0 :: dead).
  { intros target Ha. destruct H as [Ht Hk Hd Hs Hv].
    unfold advance_stays in advance_stay. rewrite Forall_forall in advance_stay.
    specialize (advance_stay _ Hs).
    unfold advance_of in *. rewrite Hk, Hd in Ha. rewrite Ha in advance_stay.
    by apply bool_decide_eq_true in advance_stay. }
  unfold advance_of in Hadv. unfold timer_expire, call_to_state. run.
  destruct (index _ _) as [i|]; cbn; [|by split; [destruct H|constructor]].
  destruct (keys _ !! _) as [nx|]; cbn; [|by split; [destruct H|constructor]].
  destruct (to_state_dict _ !! nx) as [target|]; cbn;
    [|by split; [destruct H|constructor]].
  specialize (Hadv target eq_refl).
  set (n' := set_current_step _ _).
  assert (Hn' : held n') by (destruct H; by split).
  destruct (held_publish n' Hn') as [Hp Ht].
  destruct (publish_task_state_message n') as [[[]|e] n'' tr'']; cbn in *;
    (split; [done|]); by constructor.
Qed.

Lemma held_task_timer_thread : maintains held named task_timer_thread.
Proof.
  unfold task_timer_thread.
  maintains_with ltac:(first [ apply held_read_timer_length
                             | apply held_timer_loop
                             | apply held_timer_expire ]).
Qed.

Lemma held_perform (op : operation) : maintains held named (perform op).
Proof.
  destruct op; cbn [perform];
    [apply held_listener_callback | apply held_publish | apply held_task_timer_thread].
Qed.

Lemma held_run_session (ops : list operation) (n : TaskMonitor) :
  held n -> held (run_session ops n).
Proof.
  unfold run_session. revert n.
  induction ops as [|op ops IH]; intros n H; [done|].
  cbn [foldl]. apply IH. by apply (held_perform op n).
Qed.
End Held.

Lemma find_source_split (s : string) (trs : list Transition) (tr : Transition) :
  find (fun tr' => bool_decide (source tr' = s)) trs = Some tr ->
  source tr = s /\
  exists before behind,
    trs = (before ++ tr :: behind)%list /\
    Forall (fun tr' => source tr' <> s) before.
Proof.
  induction trs as [|tr0 l IH]; [done|]. cbn.
  destruct (bool_decide (source tr0 = s)) eqn:E.
  - intros [= ->]. apply bool_decide_eq_true in E. split; [done|]. by exists [], l.
  - apply bool_decide_eq_false in E. intros Hf.
    destruct (IH Hf) as (Hs & before & behind & -> & Hb).
    split; [done|]. exists (tr0 :: before), behind. split; [done|]. by constructor.
Qed.

Lemma published_names_trigger (trg : string) (tr : list effect) :
  Forall (names_trigger trg) tr ->
  Forall (fun m => TaskUpdate.next_activity m = Some trg) (published tr).
Proof.
  induction 1 as [|e tr He _ IH]; [constructor|].
  destruct e; cbn; try done. by constructor.
Qed.


